(** * ToDoList: the Express/Mongoose API and the browser client

    A shallow embedding of the two source files of the repository:

    - the Express application (routes over the [Todo] model), and
    - [frontend/script.js] ([TodoItemFormatter], [TodoManager], [UIManager],
      [ThemeSwitcher]).

    JavaScript strings are sequences of UTF-16 code units, arrays are lists,
    [undefined] is [None].  Promises are run to completion: a handler is one
    atomic step on the collection, and a client method is a small program
    that may issue [fetch] requests and is interpreted against the API. *)

From stdpp Require Import base numbers list sorting strings gmap.

(** ** JavaScript strings *)

Module Js.

(** A string is its sequence of UTF-16 code units. *)
Definition jsstring : Type := list N.

(** A source literal (ASCII only in this program). *)
Definition lit (s : string) : jsstring :=
  Ascii.N_of_ascii <$> String.list_ascii_of_string s.

(** [s === t] on strings. *)
Definition str_eqb (s t : jsstring) : bool := bool_decide (s = t).

(** ToBoolean of a string: only the empty string is falsy. *)
Definition truthy (s : jsstring) : bool :=
  match s with [] => false | _ :: _ => true end.

(** ECMAScript WhiteSpace and LineTerminator code units, the ones
    [String.prototype.trim] strips. *)
Definition is_ws (c : N) : bool :=
  ((9 <=? c) && (c <=? 13) ||
   (c =? 32) || (c =? 160) || (c =? 5760) ||
   (8192 <=? c) && (c <=? 8202) ||
   (c =? 8232) || (c =? 8233) || (c =? 8239) || (c =? 8287) ||
   (c =? 12288) || (c =? 65279))%N.

Fixpoint trimStart (s : jsstring) : jsstring :=
  match s with
  | [] => []
  | c :: s' => if is_ws c then trimStart s' else s
  end.

Definition trimEnd (s : jsstring) : jsstring := rev (trimStart (rev s)).

(** [s.trim()] *)
Definition trim (s : jsstring) : jsstring := trimEnd (trimStart s).

(** How an awaited call ends: it returns a value, or it throws; the
    payload of [Throw] is [err.message]. *)
Inductive completion (A : Type) : Type :=
| Normal (a : A)
| Throw (message : jsstring).
Global Arguments Normal {A} a.
Global Arguments Throw {A} message.

(** [Array.prototype.findIndex]; [None] stands for [-1]. *)
Fixpoint findIndex {A} (p : A → bool) (l : list A) : option nat :=
  match l with
  | [] => None
  | x :: l' => if p x then Some 0 else S <$> findIndex p l'
  end.

End Js.
Import Js.

(** ** The todo record *)

(** Identifiers as strings: the route parameter, and the [_id] of a record
    in JSON. *)
Definition Id : Type := jsstring.

Definition is_digit (c : N) : bool := ((48 <=? c) && (c <=? 57))%N.

Definition is_lower_hex (c : N) : bool :=
  is_digit c || ((97 <=? c) && (c <=? 102))%N.

(** The string form of an ObjectId: 24 hexadecimal digits, in lower case. *)
Definition is_objectid (s : jsstring) : bool :=
  (length s =? 24) && forallb is_lower_hex s.

(** An ObjectId, held by its string form. *)
Definition ObjectId : Type := { s : jsstring | Is_true (is_objectid s) }.

Definition hex (o : ObjectId) : Id := `o.

Definition lower_hex (c : N) : N :=
  if ((65 <=? c) && (c <=? 70))%N then (c + 32)%N else c.

(** The cast Mongoose applies to an identifier it is given as a string: 24
    hexadecimal digits in either case make an ObjectId, anything else is a
    cast error ([None]).  This is the cast of the current driver; the
    package versions are not among the sources. *)
Definition castObjectId (s : jsstring) : option ObjectId :=
  match decide (Is_true (is_objectid (lower_hex <$> s))) with
  | left H => Some (exist (λ s, Is_true (is_objectid s)) (lower_hex <$> s) H)
  | right _ => None
  end.

(** Modelled from the spec: the [Todo] schema ([models/Todo] is required by
    the server but is not among the sources).  A record has an identifier
    (store-assigned), a task description (text, required), a due date
    (optional text), a completed flag (boolean, default false) and a
    creation timestamp (server-assigned); dates are milliseconds.

    A value of this type is a record as the collection holds it and as the
    API serialises it: its identifier is an ObjectId and its task has passed
    the [required] validator, which refuses the empty string. *)
Record Todo : Type := mkTodo {
  _id : Id;
  task : jsstring;
  dueDate : option jsstring;
  completed : bool;
  createdAt : Z;
  stored : Is_true (is_objectid _id && truthy task);
}.

Global Instance Todo_eq_dec : EqDecision Todo.
Proof.
  intros x y.
  refine (cast_if (decide ((_id x, task x, dueDate x, completed x, createdAt x)
                           = (_id y, task y, dueDate y, completed y, createdAt y)))).
  - destruct x as [? ? ? ? ? Hx], y as [? ? ? ? ? Hy]. simpl in *.
    intros. simplify_eq. f_equal. apply proof_irrel.
  - intros <-. done.
Defined.

(** A record out of fields that have been validated, or nothing if they do
    not pass. *)
Definition record (id : Id) (t : jsstring) (due : option jsstring)
    (done : bool) (created : Z) : option Todo :=
  match decide (Is_true (is_objectid id && truthy t)) with
  | left H => Some (mkTodo id t due done created H)
  | right _ => None
  end.

Definition with_completed (b : bool) (d : Todo) : Todo :=
  mkTodo (_id d) (task d) (dueDate d) b (createdAt d) (stored d).
Definition with_dueDate (s : jsstring) (d : Todo) : Todo :=
  mkTodo (_id d) (task d) (Some s) (completed d) (createdAt d) (stored d).

(** A JSON request body [{task?, completed?, dueDate?}], its values of the
    types the schema gives the fields; an absent key reads as
    [undefined]. *)
Record body : Type := mkBody {
  b_task : option jsstring;
  b_completed : option bool;
  b_dueDate : option jsstring;
}.

(** ** The server: Express routes over the Mongoose model *)

Module Server.

(** The [todos] collection, in insertion (natural) order. *)
Abbreviation collection := (list Todo).

(** What a response carries: [res.json(x)], or a body that is not JSON
    (the error page Express sends on its own). *)
Inductive payload : Type :=
| JTodos (todos : list Todo)
| JTodo (todo : Todo)
| JMessage (message : jsstring)
| Page.

Record res : Type := mkRes { status : Z; json : payload }.

(** *** Model operations *)

Definition has_id (id : Id) (d : Todo) : bool := bool_decide (_id d = id).

(** [{ createdAt: -1 }]: the later record comes first. *)
Definition newest_first (a b : Todo) : Prop := (createdAt b ≤ createdAt a)%Z.

Global Instance newest_first_dec a b : Decision (newest_first a b).
Proof. unfold newest_first. apply _. Defined.

(** [Todo.find().sort({ createdAt: -1 })] *)
Definition find_sorted (c : collection) : completion (list Todo) :=
  Normal (merge_sort newest_first c).

(** The message of the CastError for an identifier that is no ObjectId;
    code unit 34 is the double quote. *)
Definition cast_error_message (value : jsstring) : jsstring :=
  lit "Cast to ObjectId failed for value " ++ [34%N] ++ value ++ [34%N]
    ++ lit " (type string) at path " ++ [34%N] ++ lit "_id" ++ [34%N]
    ++ lit " for model " ++ [34%N] ++ lit "Todo" ++ [34%N].

(** [Todo.findById(id)]: the identifier is cast, then looked up; [None] is
    [null]. *)
Definition findById (id : Id) (c : collection) : completion (option Todo) :=
  match castObjectId id with
  | None => Throw (cast_error_message id)
  | Some o => Normal (List.find (has_id (hex o)) c)
  end.

(** A document in memory, before validation: [new Todo(...)], or a record
    read from the collection and assigned to.  A new document has no
    creation time yet. *)
Record document : Type := mkDocument {
  doc_id : Id;
  doc_task : option jsstring;
  doc_dueDate : option jsstring;
  doc_completed : bool;
  doc_createdAt : option Z;
}.

(** [new Todo({ task, dueDate })]: the identifier is generated when the
    document is built; [completed] takes its default. *)
Definition new_Todo (oid : ObjectId) (task dueDate : option jsstring) : document :=
  mkDocument (hex oid) task dueDate false None.

(** The document of a stored record. *)
Definition hydrate (d : Todo) : document :=
  mkDocument (_id d) (Some (task d)) (dueDate d) (completed d) (Some (createdAt d)).

Definition required_message : jsstring :=
  lit "Todo validation failed: task: Path `task` is required.".

(** Validation on save: [task] is required, and the validator refuses a
    missing task and the empty string alike.  A document that passes is a
    record. *)
Definition validate (doc : document) (created : Z) : option Todo :=
  match doc_task doc with
  | None => None
  | Some t => record (doc_id doc) t (doc_dueDate doc) (doc_completed doc) created
  end.

(** [todo.save()] on a new document: validation, then the creation
    timestamp, then the insert. *)
Definition save_new (now : Z) (doc : document) (c : collection)
  : completion Todo * collection :=
  match validate doc now with
  | None => (Throw required_message, c)
  | Some d => (Normal d, c ++ [d])
  end.

Definition not_found_message : jsstring :=
  lit "No document found for query".

(** [todo.save()] on a document read from the collection: validation, then
    the stored document with that identifier is overwritten. *)
Definition save (doc : document) (c : collection) : completion Todo * collection :=
  match doc_createdAt doc with
  | None => (Throw not_found_message, c)
  | Some created =>
      match validate doc created with
      | None => (Throw required_message, c)
      | Some d =>
          match findIndex (has_id (_id d)) c with
          | Some i => (Normal d, <[i:=d]> c)
          | None => (Throw not_found_message, c)
          end
      end
  end.

(** [Todo.findByIdAndDelete(id)]: the identifier is cast, then the first
    record with it is removed. *)
Definition findByIdAndDelete (id : Id) (c : collection)
  : completion (option Todo) * collection :=
  match castObjectId id with
  | None => (Throw (cast_error_message id), c)
  | Some o =>
      match findIndex (has_id (hex o)) c with
      | Some i => (Normal (c !! i), delete i c)
      | None => (Normal None, c)
      end
  end.

(** [Todo.deleteMany({})]; the result is the deleted count. *)
Definition deleteMany_all (c : collection) : completion nat * collection :=
  (Normal (length c), []).

(** *** Routes *)

(** [app.get('/api/todos')] *)
Definition get_todos (c : collection) : res * collection :=
  match find_sorted c with
  | Normal todos => (mkRes 200 (JTodos todos), c)
  | Throw m => (mkRes 500 (JMessage m), c)
  end.

(** [app.post('/api/todos')]; [oid] and [now] are the identifier generator
    and the clock at the time of the request. *)
Definition post_todos (oid : ObjectId) (now : Z) (b : body) (c : collection)
  : res * collection :=
  let todo := new_Todo oid (b_task b) (b_dueDate b) in
  match save_new now todo c with
  | (Normal newTodo, c') => (mkRes 201 (JTodo newTodo), c')
  | (Throw m, c') => (mkRes 400 (JMessage m), c')
  end.

(** The three guarded assignments of the update route. *)
Definition assign_fields (b : body) (todo : document) : document :=
  let todo :=
    match b_task b with
    | Some t => mkDocument (doc_id todo) (Some t) (doc_dueDate todo)
                  (doc_completed todo) (doc_createdAt todo)
    | None => todo
    end in
  let todo :=
    match b_completed b with
    | Some v => mkDocument (doc_id todo) (doc_task todo) (doc_dueDate todo)
                  v (doc_createdAt todo)
    | None => todo
    end in
  let todo :=
    match b_dueDate b with
    | Some s => mkDocument (doc_id todo) (doc_task todo) (Some s)
                  (doc_completed todo) (doc_createdAt todo)
    | None => todo
    end in
  todo.

(** [app.put('/api/todos/:id')] *)
Definition put_todo (id : Id) (b : body) (c : collection) : res * collection :=
  match findById id c with
  | Throw m => (mkRes 400 (JMessage m), c)
  | Normal None => (mkRes 404 (JMessage (lit "Todo not found")), c)
  | Normal (Some todo) =>
      match save (assign_fields b (hydrate todo)) c with
      | (Normal updatedTodo, c') => (mkRes 200 (JTodo updatedTodo), c')
      | (Throw m, c') => (mkRes 400 (JMessage m), c')
      end
  end.

(** [app.delete('/api/todos/:id')] *)
Definition delete_todo (id : Id) (c : collection) : res * collection :=
  match findByIdAndDelete id c with
  | (Throw m, c') => (mkRes 500 (JMessage m), c')
  | (Normal None, c') => (mkRes 404 (JMessage (lit "Todo not found")), c')
  | (Normal (Some _), c') => (mkRes 200 (JMessage (lit "Todo deleted")), c')
  end.

(** [app.delete('/api/todos')] *)
Definition delete_todos (c : collection) : res * collection :=
  match deleteMany_all c with
  | (Normal _, c') => (mkRes 200 (JMessage (lit "All todos deleted")), c')
  | (Throw m, c') => (mkRes 500 (JMessage m), c')
  end.

(** *** Requests and their dispatch *)

Inductive request : Type :=
| GET_todos
| POST_todos (b : body)
| PUT_todo (id : Id) (b : body)
| DELETE_todo (id : Id)
| DELETE_todos.

(** One request served under the identifier generator and clock of its
    arrival; the identifier in a request is the route parameter. *)
Definition serve (oid : ObjectId) (now : Z) (r : request) (c : collection)
  : res * collection :=
  match r with
  | GET_todos => get_todos c
  | POST_todos b => post_todos oid now b c
  | PUT_todo id b => put_todo id b c
  | DELETE_todo id => delete_todo id c
  | DELETE_todos => delete_todos c
  end.

Definition is_delete (r : request) : bool :=
  match r with
  | DELETE_todo _ | DELETE_todos => true
  | _ => false
  end.

(** A history of requests, each with its identifier and clock reading;
    the responses come back in the same order. *)
Fixpoint serve_all (h : list (ObjectId * Z * request)) (c : collection)
  : list res * collection :=
  match h with
  | [] => ([], c)
  | (oid, now, r) :: h' =>
      let '(a, c1) := serve oid now r c in
      let '(rs, c2) := serve_all h' c1 in
      (a :: rs, c2)
  end.

(** The inserts of a history: its requests that were answered 201. *)
Definition created (rs : list res) : nat :=
  length (List.filter (λ a, (status a =? 201)%Z) rs).

(** The identifiers the generator hands to the create requests of a
    history, and the clock readings of its requests. *)
Definition minted (h : list (ObjectId * Z * request)) : list Id :=
  (λ x, hex x.1.1) <$>
    List.filter (λ x, match x.2 with POST_todos _ => true | _ => false end) h.

Definition clock (h : list (ObjectId * Z * request)) : list Z := (λ x, x.1.2) <$> h.

End Server.

(** ** The client: [frontend/script.js] *)

Module Client.

(** *** [fetch] as an effect *)

(** What [await response.json()] yields on each route of the API. *)
Definition reply (r : Server.request) : Type :=
  match r with
  | Server.GET_todos => list Todo
  | Server.POST_todos _ | Server.PUT_todo _ _ => Todo
  | Server.DELETE_todo _ | Server.DELETE_todos => unit
  end.

(** The outcome of [await fetch(...)]: the promise rejects (no network),
    or a response arrives with [response.ok] true (and its JSON) or
    false. *)
Inductive fetched (X : Type) : Type :=
| Rejected (reason : jsstring)
| Ok (status : Z) (json : X)
| NotOk (status : Z).
Global Arguments Rejected {X} reason.
Global Arguments Ok {X} status json.
Global Arguments NotOk {X} status.

(** An asynchronous method: it finishes with a result, or awaits one
    [fetch] and continues with its outcome. *)
Inductive prog (R : Type) : Type :=
| Done (r : R)
| Fetch (rq : Server.request) (k : fetched (reply rq) → prog R).
Global Arguments Done {R} r.
Global Arguments Fetch {R} rq k.

Fixpoint bind {A B} (p : prog A) (f : A → prog B) : prog B :=
  match p with
  | Done a => f a
  | Fetch rq k => Fetch rq (λ x, bind (k x) f)
  end.

(** *** [TodoItemFormatter] *)

Definition formatTask (task : jsstring) : jsstring :=
  if 14 <? length task then take 14 task ++ lit "..." else task.

(** [dueDate || "No due date"] *)
Definition formatDueDate (dueDate : option jsstring) : jsstring :=
  match dueDate with
  | Some s => if truthy s then s else lit "No due date"
  | None => lit "No due date"
  end.

Definition formatStatus (completed : bool) : jsstring :=
  if completed then lit "Completed" else lit "Pending".

(** *** [TodoManager] *)

(** The formatter has no state and the API address is a constant, so the
    manager is its cached array. *)
Record TodoManager : Type := mkManager { todos : list Todo }.

(** [(t._id || t.id) === id]: a record of this API has no [id] key, so the
    right operand of [||] is [undefined], which equals no string. *)
Definition id_is (id : Id) (t : Todo) : bool :=
  if truthy (_id t) then str_eqb (_id t) id else false.

Definition fetchTodos (m : TodoManager)
  : prog (completion (list Todo) * TodoManager) :=
  Fetch Server.GET_todos (λ response,
    match response with
    | Rejected e => Done (Throw e, m)
    | NotOk _ => Done (Throw (lit "Failed to fetch todos"), m)
    | Ok _ l => Done (Normal l, mkManager l)
    end).

Definition addTodo (task : jsstring) (dueDate : option jsstring)
    (m : TodoManager) : prog (completion Todo * TodoManager) :=
  let todoData :=
    mkBody (Some (formatTask task)) None (Some (formatDueDate dueDate)) in
  Fetch (Server.POST_todos todoData) (λ response,
    match response with
    | Rejected e => Done (Throw e, m)
    | NotOk _ => Done (Throw (lit "Failed to add task"), m)
    | Ok _ newTodo => Done (Normal newTodo, mkManager (newTodo :: todos m))
    end).

(** [const index = findIndex(...); if (index !== -1) todos[index] = x] *)
Definition replace_by_id (id : Id) (x : Todo) (l : list Todo) : list Todo :=
  match findIndex (id_is id) l with
  | Some index => <[index:=x]> l
  | None => l
  end.

Definition editTodo (id : Id) (updatedTask : jsstring) (m : TodoManager)
  : prog (completion Todo * TodoManager) :=
  Fetch (Server.PUT_todo id (mkBody (Some updatedTask) None None)) (λ response,
    match response with
    | Rejected e => Done (Throw e, m)
    | NotOk _ => Done (Throw (lit "Failed to update task"), m)
    | Ok _ updatedTodo =>
        Done (Normal updatedTodo,
              mkManager (replace_by_id id updatedTodo (todos m)))
    end).

Definition deleteTodo (id : Id) (m : TodoManager)
  : prog (completion unit * TodoManager) :=
  Fetch (Server.DELETE_todo id) (λ response,
    match response with
    | Rejected e => Done (Throw e, m)
    | NotOk _ => Done (Throw (lit "Failed to delete task"), m)
    | Ok _ _ =>
        Done (Normal (),
              mkManager (List.filter (λ todo, negb (id_is id todo)) (todos m)))
    end).

Definition toggleTodoStatus (id : Id) (m : TodoManager)
  : prog (completion unit * TodoManager) :=
  match List.find (id_is id) (todos m) with
  | Some todo =>
      Fetch (Server.PUT_todo id (mkBody None (Some (negb (completed todo))) None))
        (λ response,
          match response with
          | Rejected e => Done (Throw e, m)
          | NotOk _ => Done (Throw (lit "Failed to toggle status"), m)
          | Ok _ updatedTodo =>
              Done (Normal (),
                    mkManager (replace_by_id id updatedTodo (todos m)))
          end)
  | None => Done (Normal (), m)
  end.

Definition clearAllTodos (m : TodoManager)
  : prog (completion unit * TodoManager) :=
  Fetch Server.DELETE_todos (λ response,
    match response with
    | Rejected e => Done (Throw e, m)
    | NotOk _ => Done (Throw (lit "Failed to clear tasks"), m)
    | Ok _ _ => Done (Normal (), mkManager [])
    end).

(** [filterTodos(status)]: the view, and the manager as the call leaves
    it. *)
Definition filterTodos (status : jsstring) (m : TodoManager)
  : list Todo * TodoManager :=
  if str_eqb status (lit "all") then (todos m, m)
  else if str_eqb status (lit "pending") then
    (List.filter (λ todo, negb (completed todo)) (todos m), m)
  else if str_eqb status (lit "completed") then
    (List.filter (λ todo, completed todo) (todos m), m)
  else ([], m).

(** *** [UIManager] *)

(** One table row of [displayTodos]: the [data-id] and the three text
    cells. *)
Record row : Type := mkRow {
  row_id : jsstring;
  cell_task : jsstring;
  cell_dueDate : jsstring;
  cell_status : jsstring;
}.

(** What the table body holds after [displayTodos]: the [No task found]
    row, or one row for each record; or, when a text put into the markup is
    not inert, whatever the browser makes of the markup built from these
    records. *)
Inductive tbody : Type :=
| NoTaskFound
| Rows (rows : list row)
| Unparsed (todos : list Todo).

(** A click listener of the add button: the constructor's, or the
    [handleUpdate] closure of an edit (with the captured [id] and button
    markup). *)
Inductive listener : Type :=
| OnAdd
| OnUpdate (id : Id) (originalAddBtnHtml : jsstring).

Record UIManager : Type := mkUI {
  todoManager : TodoManager;
  taskInput : jsstring;
  dateInput : jsstring;
  addBtn_innerHTML : jsstring;
  addBtn_click : list listener;
  todosListBody : tbody;
  alertMessage : option (jsstring * jsstring);
}.

Definition set_manager (m : TodoManager) (ui : UIManager) : UIManager :=
  mkUI m (taskInput ui) (dateInput ui) (addBtn_innerHTML ui)
    (addBtn_click ui) (todosListBody ui) (alertMessage ui).
Definition set_inputs (t d : jsstring) (ui : UIManager) : UIManager :=
  mkUI (todoManager ui) t d (addBtn_innerHTML ui)
    (addBtn_click ui) (todosListBody ui) (alertMessage ui).
Definition set_addBtn (html : jsstring) (ls : list listener) (ui : UIManager)
  : UIManager :=
  mkUI (todoManager ui) (taskInput ui) (dateInput ui) html ls
    (todosListBody ui) (alertMessage ui).
Definition set_tbody (b : tbody) (ui : UIManager) : UIManager :=
  mkUI (todoManager ui) (taskInput ui) (dateInput ui) (addBtn_innerHTML ui)
    (addBtn_click ui) b (alertMessage ui).

(** The banner is set and shown; its removal three seconds later is a
    timer and is not part of the state. *)
Definition showAlertMessage (message type : jsstring) (ui : UIManager)
  : UIManager :=
  mkUI (todoManager ui) (taskInput ui) (dateInput ui) (addBtn_innerHTML ui)
    (addBtn_click ui) (todosListBody ui) (Some (message, type)).

Definition display_row (todo : Todo) : row :=
  mkRow (if truthy (_id todo) then _id todo else lit "undefined")
        (formatTask (task todo))
        (formatDueDate (dueDate todo))
        (formatStatus (completed todo)).

(** Text that reads back as itself when it is written into the markup of
    a table cell: it has no [<], no [&], no NUL and no carriage return.  The
    source interpolates the cell texts into [innerHTML] as they are. *)
Definition inert (s : jsstring) : bool :=
  forallb (λ c, negb ((c =? 60) || (c =? 38) || (c =? 0) || (c =? 13))%N) s.

Definition inert_row (todo : Todo) : bool :=
  inert (formatTask (task todo)) && inert (formatDueDate (dueDate todo)).

Definition displayTodos (l : list Todo) (ui : UIManager) : UIManager :=
  match l with
  | [] => set_tbody NoTaskFound ui
  | _ :: _ =>
      if forallb inert_row l then set_tbody (Rows (display_row <$> l)) ui
      else set_tbody (Unparsed l) ui
  end.

Definition showAllTodos (ui : UIManager) : UIManager :=
  let '(l, m) := filterTodos (lit "all") (todoManager ui) in
  displayTodos l (set_manager m ui).

Definition handleFilterTodos (status : jsstring) (ui : UIManager) : UIManager :=
  let '(filteredTodos, m) := filterTodos status (todoManager ui) in
  displayTodos filteredTodos (set_manager m ui).

Definition handleAddTodo (ui : UIManager) : prog UIManager :=
  let task := trim (taskInput ui) in
  let dueDate := dateInput ui in
  if str_eqb task (lit "") then
    Done (showAlertMessage (lit "Please enter a task") (lit "error") ui)
  else
    bind (addTodo task (Some dueDate) (todoManager ui)) (λ '(c, m),
      let ui := set_manager m ui in
      match c with
      | Normal _ =>
          Done (showAlertMessage (lit "Task added successfully") (lit "success")
                  (set_inputs (lit "") (lit "") (showAllTodos ui)))
      | Throw _ =>
          Done (showAlertMessage
                  (lit "Failed to add task. Please check your connection.")
                  (lit "error") ui)
      end).

(** The value an input takes when a record field is assigned to it: a
    string as it is, [undefined] as its string conversion. *)
Definition to_input (v : option jsstring) : jsstring :=
  match v with Some s => s | None => lit "undefined" end.

(** The page's markup is not among the sources; the task input is taken
    to be a text input and [.schedule-date] a date input.  A text input
    strips line breaks from a value assigned to it. *)
Definition text_value (s : jsstring) : jsstring :=
  List.filter (λ c, negb ((c =? 10) || (c =? 13))%N) s.

(** The number written by a string of decimal digits. *)
Definition digits_value (s : jsstring) : option N :=
  foldl (λ acc c,
           match acc with
           | Some n => if is_digit c then Some (10 * n + (c - 48))%N else None
           | None => None
           end) (Some 0%N) s.

Definition days_in_month (y m : N) : N :=
  if ((m =? 4) || (m =? 6) || (m =? 9) || (m =? 11))%N then 30%N
  else if (m =? 2)%N then
    if (((y mod 4 =? 0) && negb (y mod 100 =? 0)) || (y mod 400 =? 0))%N
    then 29%N else 28%N
  else 31%N.

(** A valid date string: a year of four or more digits that is not zero, a
    month and a day of that month, joined by hyphens (code unit 45). *)
Definition is_date (s : jsstring) : bool :=
  (10 <=? length s) &&
  match drop (length s - 6) s with
  | [h1; m1; m2; h2; d1; d2] =>
      (h1 =? 45)%N && (h2 =? 45)%N &&
      match digits_value (take (length s - 6) s),
            digits_value [m1; m2], digits_value [d1; d2] with
      | Some y, Some m, Some d =>
          ((0 <? y) && (1 <=? m) && (m <=? 12) && (1 <=? d)
           && (d <=? days_in_month y m))%N
      | _, _, _ => false
      end
  | _ => false
  end.

(** A date input keeps an assigned value that is a valid date string and
    takes the empty string for any other. *)
Definition date_value (s : jsstring) : jsstring :=
  if is_date s then s else lit "".

(** The check mark as [innerHTML] gives it back once it has been assigned:
    attribute values are serialised in double quotes (code unit 34). *)
Definition check_mark : jsstring :=
  lit "<i class=" ++ [34%N] ++ lit "bx bx-check bx-sm" ++ [34%N] ++ lit "></i>".

(** [handleEditTodo(id)]: the inputs are filled from the cached record,
    the button shows a check mark, and its listeners are replaced (the
    cloned node has none) by the update closure.  The markup read from the
    button before is assigned back later as it was read. *)
Definition handleEditTodo (id : Id) (ui : UIManager) : UIManager :=
  match List.find (id_is id) (todos (todoManager ui)) with
  | Some todo =>
      let date :=
        match dueDate todo with
        | Some s => if str_eqb s (lit "No due date") then lit "" else s
        | None => to_input None
        end in
      let ui := set_inputs (text_value (task todo)) (date_value date) ui in
      let originalAddBtnHtml := addBtn_innerHTML ui in
      set_addBtn check_mark [OnUpdate id originalAddBtnHtml] ui
  | None => ui
  end.

Fixpoint remove_listener (x : listener) (ls : list listener) : list listener :=
  match ls with
  | [] => []
  | y :: ls' =>
      match x, y with
      | OnUpdate i h, OnUpdate j g =>
          if bool_decide (i = j ∧ h = g) then ls' else y :: remove_listener x ls'
      | _, _ => y :: remove_listener x ls'
      end
  end.

(** The [handleUpdate] closure of [handleEditTodo]. *)
Definition handleUpdate (id : Id) (originalAddBtnHtml : jsstring)
    (ui : UIManager) : prog UIManager :=
  let updatedTask := taskInput ui in
  bind (editTodo id updatedTask (todoManager ui)) (λ '(c, m),
    let ui := set_manager m ui in
    match c with
    | Normal _ =>
        let ui := set_addBtn originalAddBtnHtml (addBtn_click ui) ui in
        let ui := showAlertMessage (lit "Todo updated successfully")
                    (lit "success") ui in
        let ui := set_inputs (lit "") (lit "") (showAllTodos ui) in
        Done (set_addBtn (addBtn_innerHTML ui)
                (remove_listener (OnUpdate id originalAddBtnHtml)
                   (addBtn_click ui) ++ [OnAdd]) ui)
    | Throw _ =>
        Done (showAlertMessage
                (lit "Failed to update task. Please try again.")
                (lit "error") ui)
    end).

Definition handleToggleStatus (id : Id) (ui : UIManager) : prog UIManager :=
  bind (toggleTodoStatus id (todoManager ui)) (λ '(c, m),
    let ui := set_manager m ui in
    match c with
    | Normal _ => Done (showAllTodos ui)
    | Throw _ =>
        Done (showAlertMessage
                (lit "Failed to update status. Please try again.")
                (lit "error") ui)
    end).

(** [refreshUI()], the last step of the constructor. *)
Definition refreshUI (ui : UIManager) : prog UIManager :=
  bind (fetchTodos (todoManager ui)) (λ '(c, m),
    let ui := set_manager m ui in
    match c with
    | Normal _ => Done (showAllTodos ui)
    | Throw _ =>
        Done (showAlertMessage
                (lit "Failed to connect to the backend server. Is it running?")
                (lit "error") ui)
    end).

(** [handleClearAllTodos()]; [confirmed] is what the confirm dialog
    resolved to. *)
Definition handleClearAllTodos (confirmed : bool) (ui : UIManager)
  : prog UIManager :=
  if negb confirmed then Done ui
  else
    bind (clearAllTodos (todoManager ui)) (λ '(c, m),
      let ui := set_manager m ui in
      match c with
      | Normal _ =>
          Done (showAlertMessage (lit "All todos cleared successfully")
                  (lit "success") (showAllTodos ui))
      | Throw _ =>
          Done (showAlertMessage (lit "Failed to clear todos. Please try again.")
                  (lit "error") ui)
      end).

(** [handleDeleteTodo(id)]; [confirmed] is what the confirm dialog resolved
    to. *)
Definition handleDeleteTodo (confirmed : bool) (id : Id) (ui : UIManager)
  : prog UIManager :=
  if negb confirmed then Done ui
  else
    bind (deleteTodo id (todoManager ui)) (λ '(c, m),
      let ui := set_manager m ui in
      match c with
      | Normal _ =>
          Done (showAllTodos
                  (showAlertMessage (lit "Todo deleted successfully")
                     (lit "success") ui))
      | Throw _ =>
          Done (showAlertMessage (lit "Failed to delete task. Please try again.")
                  (lit "error") ui)
      end).

(** The [keyup] listener of the task input. *)
Definition taskInput_keyup (keyCode : Z) (ui : UIManager) : prog UIManager :=
  if (keyCode =? 13)%Z && (0 <? length (taskInput ui)) then handleAddTodo ui
  else Done ui.

(** What a click listener of the add button does when it fires. *)
Definition fire (l : listener) (ui : UIManager) : prog UIManager :=
  match l with
  | OnAdd => handleAddTodo ui
  | OnUpdate id originalAddBtnHtml => handleUpdate id originalAddBtnHtml ui
  end.

(** *** [showConfirmModal] *)

(** The dialog: its checkbox, its two texts, the click listeners of its two
    buttons and the promises settled so far.  A listener is named by the
    call of [showConfirmModal] that made it. *)
Record modal : Type := mkModal {
  modalToggle_checked : bool;
  modalTitle : jsstring;
  modalMessage : jsstring;
  confirmBtn_click : list nat;
  cancelBtn_click : list nat;
  resolved : list (nat * bool);
}.

(** [removeEventListener]: the listener goes if it is there. *)
Fixpoint remove_first (k : nat) (ls : list nat) : list nat :=
  match ls with
  | [] => []
  | j :: ls' => if bool_decide (j = k) then ls' else j :: remove_first k ls'
  end.

(** The body of the promise of call number [k]. *)
Definition showConfirmModal (k : nat) (title message : jsstring) (d : modal)
  : modal :=
  mkModal true title message
    (confirmBtn_click d ++ [k]) (cancelBtn_click d ++ [k]) (resolved d).

(** [onConfirm] of call [k]; registered with [once], it is off the confirm
    button when it has run. *)
Definition onConfirm (k : nat) (d : modal) : modal :=
  mkModal false (modalTitle d) (modalMessage d)
    (remove_first k (confirmBtn_click d)) (remove_first k (cancelBtn_click d))
    (resolved d ++ [(k, true)]).

(** [onCancel] of call [k]. *)
Definition onCancel (k : nat) (d : modal) : modal :=
  mkModal false (modalTitle d) (modalMessage d)
    (remove_first k (confirmBtn_click d)) (remove_first k (cancelBtn_click d))
    (resolved d ++ [(k, false)]).

(** A click runs the listeners that are on the button at that moment, in
    the order they were added. *)
Definition click_confirm (d : modal) : modal :=
  foldl (λ d k, onConfirm k d) d (confirmBtn_click d).

Definition click_cancel (d : modal) : modal :=
  foldl (λ d k, onCancel k d) d (cancelBtn_click d).

End Client.

(** ** The client run against the API *)

Module World.
Import Server Client.

(** Where a request to [apiUrl + "/" + id] arrives: at the routes with a
    parameter, with that parameter; at the routes of the collection; at no
    route; or at a parameter that cannot be decoded. *)
Inductive target : Type :=
| Item (param : jsstring)
| Collection
| NoRoute
| BadParam.

(** Letters, digits, the hyphen and the underscore: code units that pass
    through the URL of a request and the matching of a route unchanged. *)
Definition plain (c : N) : bool :=
  (is_digit c || ((65 <=? c) && (c <=? 90)) || ((97 <=? c) && (c <=? 122))
   || (c =? 45) || (c =? 95))%N.

(** What the surroundings contribute to one request: whether the network
    delivers it, the identifier generator and clock of the server, and how
    the URL is parsed and matched when the identifier in it is not
    [plain] (any answer is allowed for). *)
Record env : Type := mkEnv {
  online : bool;
  oid : ObjectId;
  now : Z;
  resolve : jsstring → target;
}.

(** An identifier of plain code units is one path segment and is the route
    parameter.  The empty identifier gives the path [/api/todos/], which the
    routes of the collection match, the trailing slash being optional. *)
Definition locate (v : env) (id : jsstring) : target :=
  match id with
  | [] => Collection
  | _ :: _ => if forallb plain id then Item id else resolve v id
  end.

(** The state outside the page: the collection, and the requests the
    client has issued so far. *)
Record world : Type := mkWorld { db : collection; sent : list request }.

(** [response.ok]: the status is in the range 200-299. *)
Definition is_ok (status : Z) : bool :=
  ((200 <=? status) && (status <=? 299))%Z.

(** The client's reading of a response to request [rq]: [response.ok],
    and the JSON of a successful answer at the type the route returns. *)
Definition receive (rq : request) (a : res) : fetched (reply rq) :=
  if is_ok (status a) then
    match rq return fetched (reply rq) with
    | GET_todos =>
        match json a with JTodos l => Ok (status a) l | _ => NotOk (status a) end
    | POST_todos _ =>
        match json a with JTodo t => Ok (status a) t | _ => NotOk (status a) end
    | PUT_todo _ _ =>
        match json a with JTodo t => Ok (status a) t | _ => NotOk (status a) end
    | DELETE_todo _ => Ok (status a) ()
    | DELETE_todos => Ok (status a) ()
    end
  else NotOk (status a).

(** The JSON of a successful answer has the shape its route returns. *)
Definition well_shaped (rq : request) (a : res) : bool :=
  negb (is_ok (status a)) ||
  match rq, json a with
  | GET_todos, JTodos _ => true
  | (POST_todos _ | PUT_todo _ _), JTodo _ => true
  | (DELETE_todo _ | DELETE_todos), JMessage _ => true
  | _, _ => false
  end.

(** The request of the client arrives at a route.  There is no update
    route on the collection; Express answers 404 where no route matches and
    400 where the parameter cannot be decoded. *)
Definition deliver (v : env) (rq : request) (c : collection) : res * collection :=
  match rq with
  | PUT_todo id b =>
      match locate v id with
      | Item param => serve (oid v) (now v) (PUT_todo param b) c
      | Collection | NoRoute => (mkRes 404 Page, c)
      | BadParam => (mkRes 400 Page, c)
      end
  | DELETE_todo id =>
      match locate v id with
      | Item param => serve (oid v) (now v) (DELETE_todo param) c
      | Collection => serve (oid v) (now v) DELETE_todos c
      | NoRoute => (mkRes 404 Page, c)
      | BadParam => (mkRes 400 Page, c)
      end
  | GET_todos | POST_todos _ | DELETE_todos => serve (oid v) (now v) rq c
  end.

Definition fetch (v : env) (rq : request) (w : world)
  : fetched (reply rq) * world :=
  if online v then
    let '(a, c) := deliver v rq (db w) in
    (receive rq a, mkWorld c (sent w ++ [rq]))
  else
    (Rejected (lit "Failed to fetch"), mkWorld (db w) (sent w ++ [rq])).

(** A program run to completion; the [n]-th request the client issues
    meets the surroundings [sched n]. *)
Fixpoint run {R} (sched : nat → env) (p : prog R) (w : world) : R * world :=
  match p with
  | Done r => (r, w)
  | Fetch rq k =>
      let '(x, w') := fetch (sched (length (sent w))) rq w in
      run sched (k x) w'
  end.

(** *** The methods of the manager, as one type *)

Inductive call : Type :=
| CallFetch
| CallAdd (task : jsstring) (dueDate : option jsstring)
| CallEdit (id : Id) (updatedTask : jsstring)
| CallDelete (id : Id)
| CallToggle (id : Id)
| CallClear.

(** A call of a method: whether it threw, and the manager afterwards. *)
Definition invoke (a : call) (m : TodoManager) : prog (bool * TodoManager) :=
  let finish {A} (p : prog (completion A * TodoManager)) :=
    bind p (λ '(c, m'),
      Done (match c with Normal _ => false | Throw _ => true end, m')) in
  match a with
  | CallFetch => finish (fetchTodos m)
  | CallAdd task dueDate => finish (addTodo task dueDate m)
  | CallEdit id updatedTask => finish (editTodo id updatedTask m)
  | CallDelete id => finish (deleteTodo id m)
  | CallToggle id => finish (toggleTodoStatus id m)
  | CallClear => finish (clearAllTodos m)
  end.

(** The cache agrees with the store: it holds the stored records, in some
    order, and the stored identifiers are distinct and not empty. *)
Definition in_sync (m : TodoManager) (w : world) : Prop :=
  todos m ≡ₚ db w ∧
  NoDup (_id <$> db w) ∧
  Forall (λ d, truthy (_id d) = true) (db w).

(** The surroundings of the next request give the server an identifier
    that is not empty and not in use. *)
Definition fresh (sched : nat → env) (w : world) : Prop :=
  truthy (hex (oid (sched (length (sent w))))) = true ∧
  hex (oid (sched (length (sent w)))) ∉ _id <$> db w.

(** The identifier of an edit or a delete is that of a cached record, as
    it is when the call comes from a row of the table: the buttons of a row
    pass the [_id] of the record the row shows. *)
Definition from_table (a : call) (m : TodoManager) : Prop :=
  match a with
  | CallEdit id _ | CallDelete id => id ∈ _id <$> todos m
  | CallFetch | CallAdd _ _ | CallToggle _ | CallClear => True
  end.

(** The user's intents, as one type: what was done, with the answer given
    to the confirm dialog where there is one. *)
Inductive intent : Type :=
| Refresh
| SubmitNew
| ConfirmEdit (id : Id) (originalAddBtnHtml : jsstring)
| Toggle (id : Id)
| DeleteOne (confirmed : bool) (id : Id)
| DeleteAll (confirmed : bool).

Definition handle (i : intent) (ui : UIManager) : prog UIManager :=
  match i with
  | Refresh => refreshUI ui
  | SubmitNew => handleAddTodo ui
  | ConfirmEdit id html => handleUpdate id html ui
  | Toggle id => handleToggleStatus id ui
  | DeleteOne confirmed id => handleDeleteTodo confirmed id ui
  | DeleteAll confirmed => handleClearAllTodos confirmed ui
  end.

End World.

(** ** [ThemeSwitcher] *)

Module Theme.

(** The parts of the page the switcher touches: [localStorage], the
    [data-theme] attribute of the root element and the checkbox. *)
Record page : Type := mkPage {
  localStorage : gmap jsstring jsstring;
  data_theme : option jsstring;
  toggle_checked : bool;
}.

Definition getThemeFromLocalStorage (p : page) : option jsstring :=
  localStorage p !! lit "theme".

Definition saveThemeToLocalStorage (themeName : jsstring) (p : page) : page :=
  mkPage (<[lit "theme" := themeName]> (localStorage p))
    (data_theme p) (toggle_checked p).

Definition setTheme (themeName : jsstring) (p : page) : page :=
  mkPage (localStorage p) (Some themeName) (toggle_checked p).

(** [init()], up to the registration of the listener. *)
Definition init (p : page) : page :=
  let theme :=
    match getThemeFromLocalStorage p with
    | Some s => if truthy s then s else lit "night"
    | None => lit "night"
    end in
  let p := setTheme theme p in
  mkPage (localStorage p) (data_theme p) (str_eqb theme (lit "light")).

(** The [change] listener; the checkbox already shows the new state. *)
Definition on_change (p : page) : page :=
  let themeName := if toggle_checked p then lit "light" else lit "night" in
  saveThemeToLocalStorage themeName (setTheme themeName p).

(** The user flips the checkbox. *)
Definition flip_toggle (p : page) : page :=
  on_change (mkPage (localStorage p) (data_theme p) (negb (toggle_checked p))).

(** The page loaded anew: storage is kept, the attribute and the checkbox
    are as the markup has them. *)
Definition reload (attr : option jsstring) (checked : bool) (p : page) : page :=
  init (mkPage (localStorage p) attr checked).

End Theme.

Import Server Client World.

(** ** Sample data *)

(** An ObjectId written out; the proof is by computation. *)
Definition objectid (s : string) (H : Is_true (is_objectid (lit s))) : ObjectId :=
  exist (λ s, Is_true (is_objectid s)) (lit s) H.

Definition sample_todo : Todo :=
  mkTodo (lit "65f0a1b2c3d4e5f6a7b8c9d1") (lit "Buy milk") (Some (lit "2024-01-01"))
    false 1000 I.

Definition other_todo : Todo :=
  mkTodo (lit "65f0a1b2c3d4e5f6a7b8c9d2") (lit "Walk the dog") None false 2000 I.

Definition sample_history : list (ObjectId * Z * request) :=
  [ (objectid "65f0a1b2c3d4e5f6a7b8c9a1" I, 10%Z, POST_todos (mkBody (Some (lit "first")) None (Some (lit "No due date"))));
    (objectid "65f0a1b2c3d4e5f6a7b8c9a2" I, 30%Z, POST_todos (mkBody (Some (lit "second")) None None));
    (objectid "65f0a1b2c3d4e5f6a7b8c9a3" I, 40%Z, POST_todos (mkBody None None None));
    (objectid "65f0a1b2c3d4e5f6a7b8c9a4" I, 20%Z, PUT_todo (lit "65f0a1b2c3d4e5f6a7b8c9a1") (mkBody None (Some true) None));
    (objectid "65f0a1b2c3d4e5f6a7b8c9a5" I, 50%Z, POST_todos (mkBody (Some (lit "third")) None None)) ].

Definition quiet : nat → env := λ _, mkEnv true (objectid "65f0a1b2c3d4e5f6a7b8c9d3" I) 3000 (λ _, NoRoute).

Definition long_task : jsstring := lit "Buy groceries today".

Definition blank_ui : UIManager :=
  mkUI (mkManager []) (lit "   ") (lit "") (lit "+") [OnAdd] NoTaskFound None.

Definition typed_ui : UIManager :=
  mkUI (mkManager []) (lit "  Buy milk ") (lit "") (lit "+") [OnAdd] NoTaskFound None.

Definition increasing_history : list (ObjectId * Z * request) :=
  [ (objectid "65f0a1b2c3d4e5f6a7b8c9a1" I, 10%Z, POST_todos (mkBody (Some (lit "first")) None None));
    (objectid "65f0a1b2c3d4e5f6a7b8c9a2" I, 20%Z, POST_todos (mkBody (Some (lit "second")) None None));
    (objectid "65f0a1b2c3d4e5f6a7b8c9a3" I, 30%Z, PUT_todo (lit "65f0a1b2c3d4e5f6a7b8c9a1") (mkBody None (Some true) None));
    (objectid "65f0a1b2c3d4e5f6a7b8c9a4" I, 40%Z, POST_todos (mkBody (Some (lit "third")) None None));
    (objectid "65f0a1b2c3d4e5f6a7b8c9a5" I, 50%Z, DELETE_todo (lit "65f0a1b2c3d4e5f6a7b8c9a2")) ].

Definition listed_ui : UIManager :=
  showAllTodos
    (mkUI (mkManager [other_todo; sample_todo]) (lit "") (lit "") (lit "+")
       [OnAdd] NoTaskFound None).

Definition stored_world : world := mkWorld [sample_todo; other_todo] [].

Definition offline : nat → env := λ _, mkEnv false (objectid "65f0a1b2c3d4e5f6a7b8c9d3" I) 3000 (λ _, NoRoute).

(** ** Properties *)

(** *** The model on sample inputs *)

Example trim_samples :
  trim (lit "  Buy milk ") = lit "Buy milk" ∧
  trim [9; 10; 13; 32; 160; 8232; 65279]%N = lit "" ∧
  trim (lit "a b") = lit "a b".
Proof. by vm_compute. Qed.

Example formatTask_samples :
  formatTask (lit "Buy milk") = lit "Buy milk" ∧
  formatTask (lit "exactly14chars") = lit "exactly14chars" ∧
  formatTask (lit "fifteen chars!!") = lit "fifteen chars!...".
Proof. by vm_compute. Qed.

(** The cast of an identifier: 24 hexadecimal digits in either case give
    the ObjectId in lower case; a shorter string, or one with another
    character, gives a cast error. *)
Example castObjectId_samples :
  hex <$> castObjectId (lit "65F0A1B2C3D4E5F6A7B8C9D1")
    = Some (lit "65f0a1b2c3d4e5f6a7b8c9d1") ∧
  hex <$> castObjectId (lit "65f0a1b2c3d4e5f6a7b8c9d1")
    = Some (lit "65f0a1b2c3d4e5f6a7b8c9d1") ∧
  hex <$> castObjectId (lit "65f0a2") = None ∧
  hex <$> castObjectId (lit "65f0a1b2c3d4e5f6a7b8c9dg") = None ∧
  hex <$> castObjectId (lit "") = None.
Proof. by vm_compute. Qed.

(** The routes compare identifiers after the cast: a stored identifier
    written in upper case is found, and deleted; an identifier that is no
    ObjectId is a cast error, 400 on update and 500 on delete. *)
Example routes_cast_the_identifier :
  delete_todo (lit "65F0A1B2C3D4E5F6A7B8C9D1") [sample_todo]
    = (mkRes 200 (JMessage (lit "Todo deleted")), []) ∧
  status (put_todo (lit "65F0A1B2C3D4E5F6A7B8C9D1") (mkBody None (Some true) None)
            [sample_todo]).1 = 200%Z ∧
  status (put_todo (lit "65f0a2") (mkBody None (Some true) None) [sample_todo]).1
    = 400%Z ∧
  status (delete_todo (lit "65f0a2") [sample_todo]).1 = 500%Z.
Proof. by vm_compute. Qed.

(** Submitting [Buy milk] with no date: one POST, one stored record, one
    row, the inputs cleared and the success banner shown. *)
Example handleAddTodo_sample :
  run quiet (handleAddTodo typed_ui) (mkWorld [] [])
  = (let doc := mkTodo (lit "65f0a1b2c3d4e5f6a7b8c9d3") (lit "Buy milk")
                  (Some (lit "No due date")) false 3000 I in
     (mkUI (mkManager [doc]) (lit "") (lit "") (lit "+") [OnAdd]
        (Rows [mkRow (lit "65f0a1b2c3d4e5f6a7b8c9d3") (lit "Buy milk") (lit "No due date")
                 (lit "Pending")])
        (Some (lit "Task added successfully", lit "success")),
      mkWorld [doc]
        [POST_todos (mkBody (Some (lit "Buy milk")) None
                       (Some (lit "No due date")))])).
Proof. by vm_compute. Qed.

(** The example of the specification: insert, then mark completed. *)
Example insert_then_complete_sample :
  let '(r1, c1) := post_todos (objectid "65f0a1b2c3d4e5f6a7b8c9d1" I) 5
                     (mkBody (Some (lit "Buy milk")) None (Some (lit "2024-01-01"))) [] in
  let '(r2, c2) := put_todo (lit "65f0a1b2c3d4e5f6a7b8c9d1") (mkBody None (Some true) None) c1 in
  r1 = mkRes 201 (JTodo (mkTodo (lit "65f0a1b2c3d4e5f6a7b8c9d1") (lit "Buy milk")
                           (Some (lit "2024-01-01")) false 5 I)) ∧
  r2 = mkRes 200 (JTodo (mkTodo (lit "65f0a1b2c3d4e5f6a7b8c9d1") (lit "Buy milk")
                           (Some (lit "2024-01-01")) true 5 I)) ∧
  c2 = [mkTodo (lit "65f0a1b2c3d4e5f6a7b8c9d1") (lit "Buy milk")
          (Some (lit "2024-01-01")) true 5 I].
Proof. by vm_compute. Qed.

(** *** Lists and strings *)

Lemma findIndex_Some {A} (p : A → bool) (l : list A) (i : nat) :
  findIndex p l = Some i →
  ∃ x, l !! i = Some x ∧ p x = true ∧ List.find p l = Some x.
Proof.
  revert i. induction l as [|y l IH]; intros i; simpl; [done|].
  destruct (p y) eqn:Hy.
  - intros [= <-]. eauto.
  - destruct (findIndex p l) as [j|]; simpl; [|done].
    intros [= <-]. destruct (IH j eq_refl) as (x & ? & ? & ?). eauto.
Qed.

Lemma findIndex_None {A} (p : A → bool) (l : list A) :
  findIndex p l = None ↔ ∀ x, x ∈ l → p x = false.
Proof.
  induction l as [|y l IH]; simpl.
  - split; [intros _ x Hx; by apply elem_of_nil in Hx|done].
  - destruct (p y) eqn:Hy.
    + split; [done|]. intros H. specialize (H y (list_elem_of_here _ _)). congruence.
    + destruct (findIndex p l); simpl.
      * split; [done|]. intros H. discriminate (proj2 IH).
        intros x Hx. apply H. by apply list_elem_of_further.
      * split; [|done]. intros _ x [->|Hx]%elem_of_cons; [done|].
        by apply (proj1 IH).
Qed.

Lemma find_Some_findIndex {A} (p : A → bool) (l : list A) (x : A) :
  List.find p l = Some x →
  ∃ i, findIndex p l = Some i ∧ l !! i = Some x ∧ p x = true.
Proof.
  induction l as [|y l IH]; simpl; [done|].
  destruct (p y) eqn:Hy.
  - intros [= <-]. eauto.
  - intros (i & -> & ? & ?)%IH. simpl. eauto.
Qed.

Lemma find_None_iff {A} (p : A → bool) (l : list A) :
  List.find p l = None ↔ ∀ x, x ∈ l → p x = false.
Proof.
  induction l as [|y l IH]; simpl.
  - split; [intros _ x Hx; by apply elem_of_nil in Hx|done].
  - destruct (p y) eqn:Hy.
    + split; [done|]. intros H. specialize (H y (list_elem_of_here _ _)). congruence.
    + rewrite IH. split.
      * intros H x [->|Hx]%elem_of_cons; auto.
      * intros H x Hx. apply H. by apply list_elem_of_further.
Qed.

Lemma has_id_true id d : has_id id d = true ↔ _id d = id.
Proof. unfold has_id. apply bool_decide_eq_true. Qed.

Lemma has_id_absent (id : Id) (c : list Todo) :
  id ∉ _id <$> c → ∀ x, x ∈ c → has_id id x = false.
Proof.
  intros Hid x Hx. destruct (has_id id x) eqn:E; [|done].
  apply has_id_true in E. destruct Hid. rewrite <-E. by apply list_elem_of_fmap_2.
Qed.

Lemma has_id_present (id : Id) (c : list Todo) :
  id ∈ _id <$> c →
  ∃ i old, findIndex (has_id id) c = Some i ∧ c !! i = Some old ∧ _id old = id.
Proof.
  intros Hid. destruct (findIndex (has_id id) c) as [i|] eqn:Hi.
  - destruct (findIndex_Some _ _ _ Hi) as (old & Hold & Hp & _).
    apply has_id_true in Hp. eauto.
  - apply list_elem_of_fmap in Hid as (x & -> & Hx).
    pose proof (proj1 (findIndex_None _ _) Hi x Hx) as Hn.
    unfold has_id in Hn. by rewrite bool_decide_eq_false in Hn.
Qed.

(** *** Identifiers and records *)

(** A record is its five fields. *)
Lemma Todo_eq (x y : Todo) :
  _id x = _id y → task x = task y → dueDate x = dueDate y →
  completed x = completed y → createdAt x = createdAt y → x = y.
Proof.
  destruct x, y; simpl. intros. simplify_eq. f_equal. apply proof_irrel.
Qed.

Lemma Todo_id_ok (d : Todo) : is_objectid (_id d) = true.
Proof.
  pose proof (stored d) as H. apply Is_true_true in H.
  by apply andb_true_iff in H as [? ?].
Qed.

Lemma Todo_task_ok (d : Todo) : truthy (task d) = true.
Proof.
  pose proof (stored d) as H. apply Is_true_true in H.
  by apply andb_true_iff in H as [? ?].
Qed.

Lemma truthy_true (s : jsstring) : truthy s = true ↔ s ≠ [].
Proof. by destruct s. Qed.

Lemma hex_objectid (o : ObjectId) : is_objectid (hex o) = true.
Proof. destruct o as [s H]. exact (proj1 (Is_true_true _) H). Qed.

Lemma is_objectid_truthy s : is_objectid s = true → truthy s = true.
Proof. by destruct s. Qed.

Lemma Todo_id_truthy (d : Todo) : truthy (_id d) = true.
Proof. apply is_objectid_truthy, Todo_id_ok. Qed.

Lemma is_lower_hex_plain c : is_lower_hex c = true → plain c = true.
Proof.
  unfold is_lower_hex, plain, is_digit.
  rewrite !orb_true_iff, !andb_true_iff, !N.leb_le, !N.eqb_eq. lia.
Qed.

Lemma is_lower_hex_lower c : is_lower_hex c = true → lower_hex c = c.
Proof.
  unfold is_lower_hex, lower_hex, is_digit.
  rewrite !orb_true_iff, !andb_true_iff, !N.leb_le. intros H.
  destruct ((65 <=? c)%N && (c <=? 70)%N) eqn:E; [|done].
  apply andb_true_iff in E. rewrite !N.leb_le in E. lia.
Qed.

Lemma is_objectid_plain s : is_objectid s = true → forallb plain s = true.
Proof.
  unfold is_objectid. intros [_ H]%andb_true_iff.
  rewrite forallb_forall in *. intros c Hc. by apply is_lower_hex_plain, H.
Qed.

Lemma is_objectid_lower s : is_objectid s = true → lower_hex <$> s = s.
Proof.
  unfold is_objectid. intros [_ H]%andb_true_iff.
  induction s as [|c s IH]; [done|]. simpl in H. apply andb_true_iff in H as [Hc Hs].
  rewrite fmap_cons, (is_lower_hex_lower c Hc), (IH Hs). done.
Qed.

(** The cast yields the identifier in lower case. *)
Lemma castObjectId_hex s o : castObjectId s = Some o → hex o = lower_hex <$> s.
Proof. unfold castObjectId. case_decide; [|done]. by intros [= <-]. Qed.

Lemma castObjectId_None s :
  castObjectId s = None ↔ is_objectid (lower_hex <$> s) = false.
Proof.
  unfold castObjectId. case_decide as H.
  - split; [done|]. pose proof (proj1 (Is_true_true _) H). congruence.
  - split; [|done]. intros _. by apply Is_true_false_1.
Qed.

(** An identifier in the canonical form casts to itself. *)
Lemma castObjectId_objectid s :
  is_objectid s = true → ∃ o, castObjectId s = Some o ∧ hex o = s.
Proof.
  intros Hs. destruct (castObjectId s) as [o|] eqn:E.
  - exists o. split; [done|]. by rewrite (castObjectId_hex _ _ E), is_objectid_lower.
  - apply castObjectId_None in E. rewrite is_objectid_lower in E by done. congruence.
Qed.

Lemma record_fields id t due dn cr d :
  record id t due dn cr = Some d →
  _id d = id ∧ task d = t ∧ dueDate d = due ∧ completed d = dn ∧ createdAt d = cr.
Proof. unfold record. case_decide; [|done]. by intros [= <-]. Qed.

Lemma record_Some id t due dn cr :
  is_objectid id = true → t ≠ [] → ∃ d, record id t due dn cr = Some d.
Proof.
  intros Hid Ht. unfold record. case_decide as H; [eauto|].
  destruct H. apply Is_true_true. rewrite Hid. by apply truthy_true.
Qed.

Lemma record_None id due dn cr : record id [] due dn cr = None.
Proof.
  unfold record. case_decide as H; [|done]. exfalso.
  apply Is_true_true in H. by rewrite andb_false_r in H.
Qed.

(** *** The server routes *)

Lemma assign_fields_hydrate (b : body) (d : Todo) :
  assign_fields b (hydrate d)
  = mkDocument (_id d) (Some (default (task d) (b_task b)))
      (from_option Some (dueDate d) (b_dueDate b))
      (default (completed d) (b_completed b)) (Some (createdAt d)).
Proof. unfold assign_fields, hydrate. by destruct (b_task b), (b_completed b), (b_dueDate b). Qed.

(** The record an update saves has the fields of the body where the body
    has them and those of the record found elsewhere. *)
Lemma validate_assign_fields (b : body) (old new : Todo) :
  validate (assign_fields b (hydrate old)) (createdAt old) = Some new →
  _id new = _id old ∧ createdAt new = createdAt old ∧
  task new = default (task old) (b_task b) ∧
  completed new = default (completed old) (b_completed b) ∧
  dueDate new = from_option Some (dueDate old) (b_dueDate b).
Proof.
  rewrite assign_fields_hydrate. unfold validate. simpl.
  intros (? & ? & ? & ? & ?)%record_fields. done.
Qed.

Lemma validate_assign_fields_Some (b : body) (old : Todo) :
  b_task b ≠ Some [] →
  ∃ new, validate (assign_fields b (hydrate old)) (createdAt old) = Some new.
Proof.
  intros Hb. rewrite assign_fields_hydrate. unfold validate. simpl.
  apply record_Some; [apply Todo_id_ok|].
  destruct (b_task b) as [t|]; simpl; [by intros ->|].
  apply truthy_true, Todo_task_ok.
Qed.

Lemma validate_assign_fields_None (b : body) (old : Todo) :
  b_task b = Some [] →
  validate (assign_fields b (hydrate old)) (createdAt old) = None.
Proof.
  intros Hb. rewrite assign_fields_hydrate, Hb. unfold validate. simpl.
  apply record_None.
Qed.

(** The update route: an identifier that is no ObjectId is a cast error,
    answered 400. *)
Lemma put_todo_malformed id b (c : list Todo) :
  castObjectId id = None →
  put_todo id b c = (mkRes 400 (JMessage (cast_error_message id)), c).
Proof. intros E. unfold put_todo, findById. by rewrite E. Qed.

Lemma put_todo_absent id o b (c : list Todo) :
  castObjectId id = Some o → hex o ∉ _id <$> c →
  put_todo id b c = (mkRes 404 (JMessage (lit "Todo not found")), c).
Proof.
  intros E Hid. unfold put_todo, findById. rewrite E.
  by rewrite (proj2 (find_None_iff _ _) (has_id_absent _ c Hid)).
Qed.

Lemma put_todo_found id o b (c : list Todo) i old :
  castObjectId id = Some o →
  findIndex (has_id (hex o)) c = Some i → c !! i = Some old →
  put_todo id b c
  = match validate (assign_fields b (hydrate old)) (createdAt old) with
    | Some new => (mkRes 200 (JTodo new), <[i:=new]> c)
    | None => (mkRes 400 (JMessage required_message), c)
    end.
Proof.
  intros E Hi Hold. unfold put_todo, findById. rewrite E.
  destruct (findIndex_Some _ _ _ Hi) as (x & Hx & Hp & ->).
  assert (x = old) as -> by congruence. apply has_id_true in Hp.
  unfold save. rewrite assign_fields_hydrate at 1. simpl.
  destruct (validate _ _) as [new|] eqn:Hv; [|done].
  apply validate_assign_fields in Hv as (Hn & _).
  by rewrite Hn, Hp, Hi.
Qed.

(** The update route answers in one of three ways: 400 or 404 with the
    collection as it was, or 200 with one record overwritten. *)
Lemma put_todo_cases id b (c : list Todo) :
  (∃ m, put_todo id b c = (mkRes 400 (JMessage m), c)) ∨
  put_todo id b c = (mkRes 404 (JMessage (lit "Todo not found")), c) ∨
  (∃ o i old new,
     castObjectId id = Some o ∧ findIndex (has_id (hex o)) c = Some i ∧
     c !! i = Some old ∧ _id old = hex o ∧
     validate (assign_fields b (hydrate old)) (createdAt old) = Some new ∧
     put_todo id b c = (mkRes 200 (JTodo new), <[i:=new]> c)).
Proof.
  destruct (castObjectId id) as [o|] eqn:E.
  2:{ left. eexists. by apply put_todo_malformed. }
  destruct (findIndex (has_id (hex o)) c) as [i|] eqn:Hi.
  2:{ right. left. apply (put_todo_absent id o); [done|].
      intros (x & Hx & Hin)%list_elem_of_fmap.
      pose proof (proj1 (findIndex_None _ _) Hi x Hin) as Hn.
      unfold has_id in Hn. by rewrite bool_decide_eq_false in Hn. }
  destruct (findIndex_Some _ _ _ Hi) as (old & Hold & Hp & _).
  apply has_id_true in Hp.
  rewrite (put_todo_found id o b c i old E Hi Hold).
  destruct (validate _ _) as [new|] eqn:Hv.
  - right. right. exists o, i, old, new. done.
  - left. eauto.
Qed.

Lemma delete_todo_malformed id (c : list Todo) :
  castObjectId id = None →
  delete_todo id c = (mkRes 500 (JMessage (cast_error_message id)), c).
Proof. intros E. unfold delete_todo, findByIdAndDelete. by rewrite E. Qed.

Lemma delete_todo_absent id o (c : list Todo) :
  castObjectId id = Some o → hex o ∉ _id <$> c →
  delete_todo id c = (mkRes 404 (JMessage (lit "Todo not found")), c).
Proof.
  intros E Hid. unfold delete_todo, findByIdAndDelete. rewrite E.
  by rewrite (proj2 (findIndex_None _ _) (has_id_absent _ c Hid)).
Qed.

Lemma delete_todo_found id o (c : list Todo) i :
  castObjectId id = Some o → findIndex (has_id (hex o)) c = Some i →
  delete_todo id c = (mkRes 200 (JMessage (lit "Todo deleted")), delete i c).
Proof.
  intros E Hi. unfold delete_todo, findByIdAndDelete. rewrite E, Hi.
  destruct (findIndex_Some _ _ _ Hi) as (x & -> & _). done.
Qed.

Lemma delete_todo_cases id (c : list Todo) :
  (∃ m, delete_todo id c = (mkRes 500 (JMessage m), c)) ∨
  delete_todo id c = (mkRes 404 (JMessage (lit "Todo not found")), c) ∨
  (∃ o i old,
     castObjectId id = Some o ∧ findIndex (has_id (hex o)) c = Some i ∧
     c !! i = Some old ∧ _id old = hex o ∧
     delete_todo id c = (mkRes 200 (JMessage (lit "Todo deleted")), delete i c)).
Proof.
  destruct (castObjectId id) as [o|] eqn:E.
  2:{ left. eexists. by apply delete_todo_malformed. }
  destruct (findIndex (has_id (hex o)) c) as [i|] eqn:Hi.
  2:{ right. left. apply (delete_todo_absent id o); [done|].
      intros (x & Hx & Hin)%list_elem_of_fmap.
      pose proof (proj1 (findIndex_None _ _) Hi x Hin) as Hn.
      unfold has_id in Hn. by rewrite bool_decide_eq_false in Hn. }
  destruct (findIndex_Some _ _ _ Hi) as (old & Hold & Hp & _).
  apply has_id_true in Hp.
  right. right. exists o, i, old. split_and!; try done.
  by apply (delete_todo_found id o).
Qed.

(** The create route: without a task, or with the empty one, validation
    fails; otherwise the record is built from the body, the generated
    identifier and the clock, and appended. *)
Lemma post_todos_invalid oid now b (c : list Todo) :
  b_task b = None ∨ b_task b = Some [] →
  post_todos oid now b c = (mkRes 400 (JMessage required_message), c).
Proof.
  unfold post_todos, save_new, new_Todo, validate. simpl.
  intros [-> | ->]; [done|]. by rewrite record_None.
Qed.

Lemma post_todos_valid oid now b t (c : list Todo) :
  b_task b = Some t → t ≠ [] →
  ∃ d, post_todos oid now b c = (mkRes 201 (JTodo d), c ++ [d]) ∧
       _id d = hex oid ∧ task d = t ∧ dueDate d = b_dueDate b ∧
       completed d = false ∧ createdAt d = now.
Proof.
  intros Hb Ht. unfold post_todos, save_new, new_Todo, validate. simpl. rewrite Hb.
  destruct (record_Some (hex oid) t (b_dueDate b) false now (hex_objectid oid) Ht)
    as (d & Hd).
  rewrite Hd. exists d. split; [done|]. by apply record_fields in Hd.
Qed.

Lemma post_todos_cases oid now b (c : list Todo) :
  post_todos oid now b c = (mkRes 400 (JMessage required_message), c) ∨
  (∃ t d, b_task b = Some t ∧ t ≠ [] ∧
     post_todos oid now b c = (mkRes 201 (JTodo d), c ++ [d]) ∧
     _id d = hex oid ∧ task d = t ∧ dueDate d = b_dueDate b ∧
     completed d = false ∧ createdAt d = now).
Proof.
  destruct (b_task b) as [[|x t]|] eqn:Hb.
  - left. apply post_todos_invalid. by right.
  - right. destruct (post_todos_valid oid now b (x :: t) c Hb) as (d & Hd); [done|].
    exists (x :: t), d. split; [done|]. split; [done|]. exact Hd.
  - left. apply post_todos_invalid. by left.
Qed.

(** C4 (the claim as stated fails).  The identifier [65f0a2] is carried by
    no stored record, yet deleting it answers 500, not 404: it is no
    ObjectId, and the cast error of [findByIdAndDelete] lands in the [catch]
    of the route. *)
Lemma C4_malformed_id_is_500 :
  (lit "65f0a2" ∉ _id <$> [sample_todo]) ∧
  (delete_todo (lit "65f0a2") [sample_todo]).1
    = mkRes 500 (JMessage (cast_error_message (lit "65f0a2"))) ∧
  status (delete_todo (lit "65f0a2") [sample_todo]).1 ≠ 404%Z.
Proof.
  split_and!.
  - apply (bool_decide_unpack _). by vm_compute.
  - by vm_compute.
  - by vm_compute.
Qed.

(** C4, amended.  Deleting an identifier that is an ObjectId (24
    hexadecimal digits, read in lower case) which no stored record carries
    answers 404 with the message [Todo not found]; deleting an identifier
    that is no ObjectId answers 500.  Either way the collection is left as
    it was, record for record; its size in particular. *)
Theorem C4_delete_absent_id (id : Id) (c : collection) :
  lower_hex <$> id ∉ _id <$> c →
  (if is_objectid (lower_hex <$> id)
   then delete_todo id c = (mkRes 404 (JMessage (lit "Todo not found")), c)
   else delete_todo id c = (mkRes 500 (JMessage (cast_error_message id)), c)) ∧
  (delete_todo id c).2 = c ∧
  length (delete_todo id c).2 = length c.
Proof.
  intros Hid.
  destruct (castObjectId id) as [o|] eqn:E.
  - assert (is_objectid (lower_hex <$> id) = true) as ->.
    { rewrite <-(castObjectId_hex _ _ E). apply hex_objectid. }
    rewrite <-(castObjectId_hex _ _ E) in Hid.
    by rewrite (delete_todo_absent id o c E Hid).
  - rewrite (proj1 (castObjectId_None id) E).
    by rewrite (delete_todo_malformed id c E).
Qed.

Lemma C4_delete_absent_id_witness :
  (if is_objectid (lower_hex <$> lit "65f0a1b2c3d4e5f6a7b8c9d2")
   then delete_todo (lit "65f0a1b2c3d4e5f6a7b8c9d2") [sample_todo]
        = (mkRes 404 (JMessage (lit "Todo not found")), [sample_todo])
   else delete_todo (lit "65f0a1b2c3d4e5f6a7b8c9d2") [sample_todo]
        = (mkRes 500 (JMessage (cast_error_message (lit "65f0a1b2c3d4e5f6a7b8c9d2"))),
           [sample_todo])) ∧
  (delete_todo (lit "65f0a1b2c3d4e5f6a7b8c9d2") [sample_todo]).2 = [sample_todo] ∧
  length (delete_todo (lit "65f0a1b2c3d4e5f6a7b8c9d2") [sample_todo]).2 = 1.
Proof.
  apply (C4_delete_absent_id (lit "65f0a1b2c3d4e5f6a7b8c9d2") [sample_todo]).
  apply (bool_decide_unpack _). by vm_compute.
Defined.

(** C5.  Whatever the collection holds, deleting all answers 200 and the
    list read after it is the empty array; deleting all once more answers
    200 again and the collection, already empty, stays as it is. *)
Theorem C5_delete_all_then_list_is_empty (c : collection) :
  let '(r1, c1) := delete_todos c in
  status r1 = 200%Z ∧
  get_todos c1 = (mkRes 200 (JTodos []), c1) ∧
  delete_todos c1 = (r1, c1).
Proof. unfold delete_todos, deleteMany_all. simpl. done. Qed.

(** C2 (the claim as stated fails).  The record [sample_todo] is stored and
    the body [{task: ""}] is a partial update of it, yet the update changes
    no field: the [required] validator refuses the empty task on save, the
    route answers 400 and the collection is as it was. *)
Lemma C2_empty_task_is_refused :
  (lit "65f0a1b2c3d4e5f6a7b8c9d1" ∈ _id <$> [sample_todo]) ∧
  put_todo (lit "65f0a1b2c3d4e5f6a7b8c9d1") (mkBody (Some (lit "")) None None) [sample_todo]
    = (mkRes 400 (JMessage required_message), [sample_todo]) ∧
  task sample_todo ≠ lit "".
Proof.
  split_and!.
  - apply list_elem_of_here.
  - by vm_compute.
  - done.
Qed.

(** C2, amended.  Take an identifier that is stored and a body whose
    values have the types of their fields.  If the body has no task, or a
    task that is not the empty string, the update answers 200 with the
    updated record, which overwrites the record found and no other: each of
    [task], [completed] and [dueDate] takes the value in the body when the
    body has the key and keeps its value otherwise, and the identifier and
    the creation time are kept; with the body [{completed: true}] the
    updated record is the old one with [completed] set.  If the task in the
    body is the empty string, the update answers 400 and the collection is
    left as it was. *)
Theorem C2_update_changes_only_fields_present (id : Id) (b : body) (c : collection) :
  id ∈ _id <$> c →
  ∃ (i : nat) (old : Todo),
    c !! i = Some old ∧ _id old = id ∧
    (b_task b ≠ Some (lit "") →
       ∃ new : Todo,
         put_todo id b c = (mkRes 200 (JTodo new), <[i:=new]> c) ∧
         _id new = _id old ∧ createdAt new = createdAt old ∧
         task new = default (task old) (b_task b) ∧
         completed new = default (completed old) (b_completed b) ∧
         dueDate new = from_option Some (dueDate old) (b_dueDate b) ∧
         (b = mkBody None (Some true) None → new = with_completed true old)) ∧
    (b_task b = Some (lit "") →
       put_todo id b c = (mkRes 400 (JMessage required_message), c)).
Proof.
  intros Hid.
  destruct (has_id_present id c Hid) as (i & old & Hi & Hold & Hido).
  destruct (castObjectId_objectid (_id old) (Todo_id_ok old)) as (o & Ho & Hhex).
  rewrite Hido in Ho, Hhex. rewrite <-Hhex in Hi.
  exists i, old. split_and!; [done|done| |].
  - intros Hb.
    destruct (validate_assign_fields_Some b old Hb) as (new & Hnew).
    exists new. rewrite (put_todo_found id o b c i old Ho Hi Hold), Hnew.
    destruct (validate_assign_fields b old new Hnew) as (? & ? & ? & ? & ?).
    split_and!; try done.
    intros ->. simpl in *. by apply Todo_eq.
  - intros Hb.
    by rewrite (put_todo_found id o b c i old Ho Hi Hold),
      (validate_assign_fields_None b old Hb).
Qed.

Lemma C2_update_witness :
  ∃ (i : nat) (old : Todo),
    [other_todo; sample_todo] !! i = Some old ∧ _id old = lit "65f0a1b2c3d4e5f6a7b8c9d1" ∧
    (b_task (mkBody None (Some true) None) ≠ Some (lit "") →
       ∃ new : Todo,
         put_todo (lit "65f0a1b2c3d4e5f6a7b8c9d1") (mkBody None (Some true) None)
             [other_todo; sample_todo]
           = (mkRes 200 (JTodo new), <[i:=new]> [other_todo; sample_todo]) ∧
         _id new = _id old ∧ createdAt new = createdAt old ∧
         task new = default (task old) (b_task (mkBody None (Some true) None)) ∧
         completed new
           = default (completed old) (b_completed (mkBody None (Some true) None)) ∧
         dueDate new
           = from_option Some (dueDate old) (b_dueDate (mkBody None (Some true) None)) ∧
         (mkBody None (Some true) None = mkBody None (Some true) None →
            new = with_completed true old)) ∧
    (b_task (mkBody None (Some true) None) = Some (lit "") →
       put_todo (lit "65f0a1b2c3d4e5f6a7b8c9d1") (mkBody None (Some true) None)
           [other_todo; sample_todo]
         = (mkRes 400 (JMessage required_message), [other_todo; sample_todo])).
Proof.
  apply (C2_update_changes_only_fields_present (lit "65f0a1b2c3d4e5f6a7b8c9d1")
           (mkBody None (Some true) None) [other_todo; sample_todo]).
  vm_compute. apply list_elem_of_further, list_elem_of_here.
Defined.

Global Instance newest_first_total : Total newest_first.
Proof. intros a b. unfold newest_first. lia. Qed.

Global Instance newest_first_trans : Transitive newest_first.
Proof. intros a b d. unfold newest_first. lia. Qed.

Lemma get_todos_sorted (c : list Todo) :
  ∃ l, get_todos c = (mkRes 200 (JTodos l), c) ∧
       l ≡ₚ c ∧ StronglySorted newest_first l.
Proof.
  exists (merge_sort newest_first c). split_and!; [done| |].
  - apply merge_sort_Permutation.
  - apply StronglySorted_merge_sort; apply _.
Qed.

(** A request that is not a delete adds one record when it is answered 201
    and none otherwise. *)
Lemma serve_length oid now r (c : list Todo) :
  is_delete r = false →
  length (serve oid now r c).2
    = length c + (if ((status (serve oid now r c).1) =? 201)%Z then 1 else 0).
Proof.
  destruct r as [|b|id b| |]; simpl; try done; intros _.
  - destruct (post_todos_cases oid now b c) as [-> | (t & d & _ & _ & -> & _)]; simpl.
    + lia.
    + rewrite length_app. simpl. lia.
  - destruct (put_todo_cases id b c)
      as [(m & ->) | [-> | (o & i & old & new & _ & _ & _ & _ & _ & ->)]]; simpl;
      try lia.
    etrans; [apply length_insert|lia].
Qed.

Lemma serve_all_length h (c : list Todo) :
  forallb (λ x, negb (is_delete x.2)) h = true →
  length (serve_all h c).2 = length c + created (serve_all h c).1.
Proof.
  revert c. induction h as [|[[oid now] r] h IH]; intros c; simpl.
  - unfold created. simpl. lia.
  - intros [Hr Hh]%andb_true_iff. apply negb_true_iff in Hr.
    pose proof (serve_length oid now r c Hr) as Hs.
    destruct (serve oid now r c) as [a c1]; simpl in *.
    specialize (IH c1 Hh). destruct (serve_all h c1) as [rs c2]; simpl in *.
    unfold created in *. simpl. destruct (status a =? 201)%Z; simpl; lia.
Qed.

(** C6.  Start from the empty collection and serve any history of requests
    without a delete; let N be the number of them answered 201 Created.
    The list read afterwards answers 200 with exactly N records, which are
    the stored ones, and each record in it is at least as new (by creation
    time) as every record after it. *)
Theorem C6_list_after_inserts (h : list (ObjectId * Z * request)) :
  forallb (λ x, negb (is_delete x.2)) h = true →
  ∃ l, get_todos (serve_all h []).2 = (mkRes 200 (JTodos l), (serve_all h []).2) ∧
       length l = created (serve_all h []).1 ∧
       l ≡ₚ (serve_all h []).2 ∧
       StronglySorted (λ a b, (createdAt b ≤ createdAt a)%Z) l.
Proof.
  intros Hh. destruct (get_todos_sorted (serve_all h []).2) as (l & Hl & Hp & Hs).
  exists l. split_and!; try done.
  rewrite Hp, (serve_all_length h [] Hh). done.
Qed.

Lemma C6_list_after_inserts_witness :
  ∃ l, get_todos (serve_all sample_history []).2
         = (mkRes 200 (JTodos l), (serve_all sample_history []).2) ∧
       length l = created (serve_all sample_history []).1 ∧
       l ≡ₚ (serve_all sample_history []).2 ∧
       StronglySorted (λ a b, (createdAt b ≤ createdAt a)%Z) l.
Proof. apply (C6_list_after_inserts sample_history). reflexivity. Defined.

(** The sample history inserts three records; the list shows them newest
    first. *)
Example sample_history_list :
  (task <$> merge_sort newest_first (serve_all sample_history []).2)
    = [lit "third"; lit "second"; lit "first"] ∧
  created (serve_all sample_history []).1 = 3.
Proof. by vm_compute. Qed.

(** *** The client against the API *)

(** Every answer of the API that is [ok] carries the JSON its route
    returns, so [receive] loses nothing. *)
Lemma serve_well_shaped oid now rq (c : list Todo) :
  well_shaped rq (serve oid now rq c).1 = true.
Proof.
  destruct rq as [|b|id b|id|]; simpl.
  - done.
  - by destruct (post_todos_cases oid now b c) as [-> | (t & d & _ & _ & -> & _)].
  - by destruct (put_todo_cases id b c)
      as [(m & ->) | [-> | (o & i & old & new & _ & _ & _ & _ & _ & ->)]].
  - by destruct (delete_todo_cases id c)
      as [(m & ->) | [-> | (o & i & old & _ & _ & _ & _ & ->)]].
  - done.
Qed.

Lemma deliver_well_shaped v rq (c : list Todo) :
  well_shaped rq (deliver v rq c).1 = true.
Proof.
  destruct rq as [|b|id b|id|]; simpl.
  - done.
  - exact (serve_well_shaped (oid v) (now v) (POST_todos b) c).
  - destruct (locate v id) as [param| | |]; try done.
    exact (serve_well_shaped (oid v) (now v) (PUT_todo param b) c).
  - destruct (locate v id) as [param| | |]; try done.
    exact (serve_well_shaped (oid v) (now v) (DELETE_todo param) c).
  - done.
Qed.

(** An [ok] answer of the right shape is read as [Ok]. *)
Lemma receive_delivered v rq (c : list Todo) :
  let a := (deliver v rq c).1 in
  is_ok (status a) = true → ∃ x, receive rq a = Ok (status a) x.
Proof.
  intros a Hok. pose proof (deliver_well_shaped v rq c) as Hs.
  fold a in Hs. unfold well_shaped in Hs. unfold receive. rewrite Hok in *.
  simpl in Hs. destruct rq, (json a); try done; eauto.
Qed.

(** What [addTodo] does when the request gets through and the task is not
    empty: the record the server builds from the body is appended to the
    collection and put at the front of the cache. *)
Lemma run_addTodo_online text due m sched w :
  let v := sched (length (sent w)) in
  let sentBody := mkBody (Some (formatTask text)) None (Some (formatDueDate due)) in
  online v = true → text ≠ [] →
  ∃ doc,
    run sched (addTodo text due m) w
      = ((Normal doc, mkManager (doc :: todos m)),
         mkWorld (db w ++ [doc]) (sent w ++ [POST_todos sentBody])) ∧
    _id doc = hex (oid v) ∧ task doc = formatTask text ∧
    dueDate doc = Some (formatDueDate due) ∧
    completed doc = false ∧ createdAt doc = now v.
Proof.
  intros v sentBody Hv Ht.
  assert (formatTask text ≠ []) as Hf.
  { unfold formatTask. destruct (14 <? length text); [|done].
    destruct text; [done|]. done. }
  destruct (post_todos_valid (oid v) (now v) sentBody (formatTask text) (db w)
              eq_refl Hf) as (doc & Hpost & Hdoc).
  exists doc. split; [|exact Hdoc].
  unfold addTodo. simpl. unfold fetch. fold v. rewrite Hv. simpl.
  fold sentBody. rewrite Hpost. done.
Qed.


(** C1 (the code departs from the claim).  Adding the 19-character task
    [Buy groceries today] stores, and caches, the 17-character text
    [Buy groceries ...]: [addTodo] passes the task through [formatTask]
    before it is sent, so the stored value is the truncated one. *)
Theorem C1_addTodo_stores_truncated_task :
  let '((_, m), w) :=
    run quiet (addTodo long_task (Some (lit "2024-01-01")) (mkManager []))
        (mkWorld [] []) in
  task <$> db w = [lit "Buy groceries ..."] ∧
  task <$> todos m = [lit "Buy groceries ..."] ∧
  lit "Buy groceries ..." ≠ long_task.
Proof. vm_compute. split_and!; [done|done|]. intros H. discriminate H. Qed.

(** The stored task is always [formatTask] of the submitted one; it is the
    submitted text itself when that has at most 14 code units. *)
Lemma addTodo_stores_formatTask text due m sched w :
  online (sched (length (sent w))) = true → text ≠ [] →
  let '((_, m'), w') := run sched (addTodo text due m) w in
  task <$> db w' = (task <$> db w) ++ [formatTask text] ∧
  task <$> todos m' = formatTask text :: (task <$> todos m) ∧
  (length text ≤ 14 → formatTask text = text).
Proof.
  intros Hv Ht.
  destruct (run_addTodo_online text due m sched w Hv Ht) as (doc & -> & _ & Htask & _).
  split_and!; simpl.
  - by rewrite fmap_app, <-Htask.
  - by rewrite Htask.
  - intros Hlen. unfold formatTask.
    destruct (14 <? length text) eqn:E; [|done]. apply Nat.ltb_lt in E. lia.
Qed.

(** By contrast the edit path sends the text as typed. *)
Example editTodo_sends_full_text :
  let w := (run quiet (editTodo (lit "65f0a1b2c3d4e5f6a7b8c9d1") long_task
                         (mkManager [sample_todo]))
              (mkWorld [sample_todo] [])).2 in
  task <$> db w = [long_task] ∧
  sent w = [PUT_todo (lit "65f0a1b2c3d4e5f6a7b8c9d1") (mkBody (Some long_task) None None)].
Proof. by vm_compute. Qed.

(** *** Filtering the cache *)

Lemma filter_sublist {A} (p : A → bool) (l : list A) :
  List.filter p l `sublist_of` l.
Proof.
  induction l as [|x l IH]; simpl; [constructor|].
  destruct (p x); by constructor.
Qed.

Lemma filter_elem_of {A} (p : A → bool) (l : list A) (x : A) :
  x ∈ List.filter p l ↔ x ∈ l ∧ p x = true.
Proof. rewrite !list_elem_of_In. apply filter_In. Qed.

Lemma filter_split {A} (p : A → bool) (l : list A) :
  l ≡ₚ List.filter (λ x, negb (p x)) l ++ List.filter p l.
Proof.
  induction l as [|x l IH]; simpl; [done|].
  destruct (p x); simpl.
  - by rewrite <-Permutation_middle, <-IH.
  - by rewrite <-IH.
Qed.

(** C3.  The pending view holds exactly the cached records with
    [completed = false] and the completed view exactly those with
    [completed = true]: each is a subsequence of the cache (so the relative
    order is the cache's), membership is as stated, and the two views
    together are the cache, record for record.  Whatever the status asked
    for, the manager is left as it was. *)
Theorem C3_filter_views (m : TodoManager) :
  let pending := (filterTodos (lit "pending") m).1 in
  let finished := (filterTodos (lit "completed") m).1 in
  pending `sublist_of` todos m ∧
  (∀ t, t ∈ pending ↔ t ∈ todos m ∧ completed t = false) ∧
  finished `sublist_of` todos m ∧
  (∀ t, t ∈ finished ↔ t ∈ todos m ∧ completed t = true) ∧
  todos m ≡ₚ pending ++ finished ∧
  (∀ status, (filterTodos status m).2 = m).
Proof.
  assert ((filterTodos (lit "pending") m).1
          = List.filter (λ todo, negb (completed todo)) (todos m)) as -> by done.
  assert ((filterTodos (lit "completed") m).1
          = List.filter (λ todo, completed todo) (todos m)) as -> by done.
  cbv zeta. split_and!.
  - apply filter_sublist.
  - intros t. rewrite filter_elem_of, negb_true_iff. done.
  - apply filter_sublist.
  - intros t. apply filter_elem_of.
  - apply (filter_split completed).
  - intros status. unfold filterTodos.
    by repeat destruct (str_eqb _ _).
Qed.

(** C9.  A status that is none of [all], [pending], [completed] gives the
    empty view, whatever the cache holds. *)
Theorem C9_filter_unknown_status (status : jsstring) (m : TodoManager) :
  status ≠ lit "all" → status ≠ lit "pending" → status ≠ lit "completed" →
  filterTodos status m = ([], m).
Proof.
  intros Ha Hp Hc. unfold filterTodos, str_eqb.
  by rewrite !bool_decide_eq_false_2.
Qed.

Lemma C9_filter_unknown_status_witness :
  filterTodos (lit "done") (mkManager [sample_todo]) = ([], mkManager [sample_todo]).
Proof.
  apply (C9_filter_unknown_status (lit "done") (mkManager [sample_todo]));
    vm_compute; intros H; discriminate H.
Defined.

(** *** Toggling *)

Lemma id_is_absent (id : Id) (l : list Todo) :
  id ∉ _id <$> l → ∀ t, t ∈ l → id_is id t = false.
Proof.
  intros Hid t Ht. unfold id_is, str_eqb.
  destruct (truthy (_id t)); [|done].
  apply bool_decide_eq_false_2. intros E. destruct Hid. rewrite <-E.
  by apply list_elem_of_fmap_2.
Qed.

(** C10.  Toggling an identifier that no cached record carries is finished
    at once, without a [fetch]: it completes normally, the manager is as it
    was, and run in any surroundings it leaves the collection and the list
    of requests sent untouched. *)
Theorem C10_toggle_absent_id (id : Id) (m : TodoManager) :
  id ∉ _id <$> todos m →
  toggleTodoStatus id m = Done (Normal (), m) ∧
  ∀ sched w, run sched (toggleTodoStatus id m) w = ((Normal (), m), w).
Proof.
  intros Hid.
  assert (toggleTodoStatus id m = Done (Normal (), m)) as E.
  { unfold toggleTodoStatus.
    by rewrite (proj2 (find_None_iff _ _) (id_is_absent id _ Hid)). }
  split; [done|]. intros sched w. by rewrite E.
Qed.

Lemma C10_toggle_absent_id_witness :
  toggleTodoStatus (lit "65f0a1b2c3d4e5f6a7b8c9d9") (mkManager [sample_todo])
    = Done (Normal (), mkManager [sample_todo]) ∧
  ∀ sched w, run sched (toggleTodoStatus (lit "65f0a1b2c3d4e5f6a7b8c9d9") (mkManager [sample_todo])) w
               = ((Normal (), mkManager [sample_todo]), w).
Proof.
  apply (C10_toggle_absent_id (lit "65f0a1b2c3d4e5f6a7b8c9d9") (mkManager [sample_todo])).
  apply (bool_decide_unpack _). by vm_compute.
Defined.

(** *** Submitting a new task *)

Lemma run_bind {A B} sched (p : prog A) (f : A → prog B) w :
  run sched (bind p f) w
    = let '(a, w') := run sched p w in run sched (f a) w'.
Proof.
  revert w. induction p as [a|rq k IH]; intros w; simpl.
  - done.
  - destruct (fetch _ rq w) as [x w']. apply IH.
Qed.

Lemma displayTodos_manager l ui : todoManager (displayTodos l ui) = todoManager ui.
Proof.
  unfold displayTodos. destruct l; [done|]. by destruct (forallb inert_row _).
Qed.

Lemma showAllTodos_manager ui : todoManager (showAllTodos ui) = todoManager ui.
Proof. unfold showAllTodos, filterTodos. simpl. by rewrite displayTodos_manager. Qed.

(** C7.  When the task input trims to the empty string, [handleAddTodo]
    finishes without a [fetch]: the banner shows the error
    [Please enter a task], the cache is as it was, and in any surroundings
    the collection and the list of requests sent are untouched.  When the
    trimmed text is not empty, the handler is [addTodo] called with the
    trimmed text (and the date input) followed by the display code, and in
    any surroundings it leaves the collection, the requests sent and the
    cache exactly as that call of [addTodo] does. *)
Theorem C7_handleAddTodo_validates (ui : UIManager) :
  (trim (taskInput ui) = lit "" →
     handleAddTodo ui
       = Done (showAlertMessage (lit "Please enter a task") (lit "error") ui) ∧
     alertMessage (showAlertMessage (lit "Please enter a task") (lit "error") ui)
       = Some (lit "Please enter a task", lit "error") ∧
     ∀ sched w,
       (run sched (handleAddTodo ui) w).2 = w ∧
       todoManager (run sched (handleAddTodo ui) w).1 = todoManager ui) ∧
  (trim (taskInput ui) ≠ lit "" →
     let add := addTodo (trim (taskInput ui)) (Some (dateInput ui)) (todoManager ui) in
     (∃ k, handleAddTodo ui = bind add k) ∧
     ∀ sched w,
       (run sched (handleAddTodo ui) w).2 = (run sched add w).2 ∧
       todoManager (run sched (handleAddTodo ui) w).1 = (run sched add w).1.2).
Proof.
  split.
  - intros Hempty.
    assert (handleAddTodo ui
            = Done (showAlertMessage (lit "Please enter a task") (lit "error") ui)) as E.
    { unfold handleAddTodo. rewrite Hempty. done. }
    split_and!; [done|done|]. intros sched w. by rewrite E.
  - intros Hne add.
    assert (str_eqb (trim (taskInput ui)) (lit "") = false) as Hb
      by by apply bool_decide_eq_false_2.
    split.
    + eexists. unfold handleAddTodo. rewrite Hb. done.
    + intros sched w. unfold handleAddTodo. rewrite Hb. fold add.
      rewrite run_bind. destruct (run sched add w) as [[c m] w'].
      destruct c as [newTodo|e]; simpl; [|done].
      split; [done|]. apply showAllTodos_manager.
Qed.

Lemma C7_handleAddTodo_validates_witness :
  (handleAddTodo blank_ui
     = Done (showAlertMessage (lit "Please enter a task") (lit "error") blank_ui)) ∧
  (∃ k, handleAddTodo typed_ui
          = bind (addTodo (lit "Buy milk") (Some (lit "")) (mkManager [])) k).
Proof.
  split.
  - apply (proj1 (C7_handleAddTodo_validates blank_ui)). reflexivity.
  - apply (proj2 (C7_handleAddTodo_validates typed_ui)).
    vm_compute. intros H. discriminate H.
Defined.

(** *** The due date *)



(** ** Further properties of the server *)

(** A stored identifier is an ObjectId in the canonical form, so the cast
    gives it back. *)
Lemma stored_id_cast (id : Id) (c : list Todo) :
  id ∈ _id <$> c → ∃ o, castObjectId id = Some o ∧ hex o = id.
Proof.
  intros (d & -> & _)%list_elem_of_fmap.
  apply castObjectId_objectid, Todo_id_ok.
Qed.

Lemma unique_by_id (c : list Todo) (x y : Todo) :
  NoDup (_id <$> c) → x ∈ c → y ∈ c → _id x = _id y → x = y.
Proof.
  intros Hnd (i & Hi)%list_elem_of_lookup (j & Hj)%list_elem_of_lookup E.
  assert (i = j) as ->.
  { apply (NoDup_lookup (_id <$> c) i j (_id x)); [done|..].
    - by rewrite list_lookup_fmap, Hi.
    - by rewrite list_lookup_fmap, Hj, E. }
  congruence.
Qed.

Lemma sublist_StronglySorted {A} (R : relation A) (l1 l2 : list A) :
  l1 `sublist_of` l2 → StronglySorted R l2 → StronglySorted R l1.
Proof.
  induction 1 as [|x l1 l2 Hsub IH|x l1 l2 Hsub IH]; intros Hs.
  - constructor.
  - apply StronglySorted_inv in Hs as [Hs Hx]. constructor; [auto|].
    rewrite Forall_forall in Hx |- *. intros y Hy. apply Hx.
    by eapply elem_of_sublist.
  - apply StronglySorted_inv in Hs as [Hs _]. auto.
Qed.

Lemma findIndex_insert {A} (p : A → bool) (l : list A) (i : nat) (x : A) :
  findIndex p l = Some i → p x = true → findIndex p (<[i:=x]> l) = Some i.
Proof.
  revert i. induction l as [|y l IH]; intros i; simpl; [done|].
  destruct (p y) eqn:Hy.
  - intros [= <-] Hx. simpl. by rewrite Hx.
  - destruct (findIndex p l) as [j|] eqn:Hj; simpl; [|done].
    intros [= <-] Hx. simpl. rewrite Hy. by rewrite (IH j eq_refl Hx).
Qed.

Lemma findIndex_first {A} (p : A → bool) (l : list A) (i : nat) :
  findIndex p l = Some i → ∀ j x, j < i → l !! j = Some x → p x = false.
Proof.
  revert i. induction l as [|y l IH]; intros i; simpl; [done|].
  destruct (p y) eqn:Hy.
  - intros [= <-] j x Hj. lia.
  - destruct (findIndex p l) as [k|] eqn:Hk; simpl; [|done].
    intros [= <-] [|j] x Hj; simpl.
    + by intros [= <-].
    + apply (IH k eq_refl). lia.
Qed.

(** The identifier is gone once its record is deleted, when identifiers
    are unique. *)
Lemma delete_removes_id (c : list Todo) (i : nat) (d : Todo) :
  NoDup (_id <$> c) → c !! i = Some d → _id d ∉ _id <$> delete i c.
Proof.
  intros Hnd Hd Hin. rewrite list_fmap_delete in Hin.
  assert ((_id <$> c) !! i = Some (_id d)) as Hi' by by rewrite list_lookup_fmap, Hd.
  rewrite (delete_Permutation _ _ _ Hi') in Hnd.
  by apply NoDup_cons in Hnd as [Hnd _].
Qed.

(** X1.  An update of an identifier that is an ObjectId (24 hexadecimal
    digits, read in lower case) which no stored record carries answers 404
    with the message [Todo not found], whatever the body; an update of an
    identifier that is no ObjectId answers 400 with the cast error.  Either
    way the collection is left as it was. *)
Theorem X1_put_absent_id (id : Id) (b : body) (c : list Todo) :
  lower_hex <$> id ∉ _id <$> c →
  if is_objectid (lower_hex <$> id)
  then put_todo id b c = (mkRes 404 (JMessage (lit "Todo not found")), c)
  else put_todo id b c = (mkRes 400 (JMessage (cast_error_message id)), c).
Proof.
  intros Hid.
  destruct (castObjectId id) as [o|] eqn:E.
  - assert (is_objectid (lower_hex <$> id) = true) as ->.
    { rewrite <-(castObjectId_hex _ _ E). apply hex_objectid. }
    rewrite <-(castObjectId_hex _ _ E) in Hid.
    by apply (put_todo_absent id o).
  - rewrite (proj1 (castObjectId_None id) E).
    by apply put_todo_malformed.
Qed.

Lemma X1_put_absent_id_witness :
  put_todo (lit "65F0A1B2C3D4E5F6A7B8C9D2") (mkBody (Some (lit "Buy bread")) (Some true) None)
      [sample_todo]
    = (mkRes 404 (JMessage (lit "Todo not found")), [sample_todo]) ∧
  put_todo (lit "65f0a2") (mkBody (Some (lit "Buy bread")) (Some true) None)
      [sample_todo]
    = (mkRes 400 (JMessage (cast_error_message (lit "65f0a2"))), [sample_todo]).
Proof.
  split.
  - apply (X1_put_absent_id (lit "65F0A1B2C3D4E5F6A7B8C9D2")
             (mkBody (Some (lit "Buy bread")) (Some true) None) [sample_todo]).
    apply (bool_decide_unpack _). by vm_compute.
  - apply (X1_put_absent_id (lit "65f0a2")
             (mkBody (Some (lit "Buy bread")) (Some true) None) [sample_todo]).
    apply (bool_decide_unpack _). by vm_compute.
Defined.

(** X2.  Deleting an identifier that is stored answers 200 with
    [Todo deleted] and takes out one record: the first that carries the
    identifier.  The others stay, in their order, and the collection is one
    shorter; when identifiers are unique no record with that identifier is
    left. *)
Theorem X2_delete_present_id (id : Id) (c : list Todo) :
  id ∈ _id <$> c →
  ∃ i d,
    c !! i = Some d ∧ _id d = id ∧
    (∀ j d', j < i → c !! j = Some d' → _id d' ≠ id) ∧
    delete_todo id c = (mkRes 200 (JMessage (lit "Todo deleted")), delete i c) ∧
    S (length (delete i c)) = length c ∧
    (NoDup (_id <$> c) → id ∉ _id <$> delete i c).
Proof.
  intros Hid. destruct (has_id_present id c Hid) as (i & d & Hi & Hd & Hidd).
  destruct (stored_id_cast id c Hid) as (o & Ho & Hhex).
  exists i, d. split_and!; try done.
  - intros j d' Hj Hd' E.
    pose proof (findIndex_first _ _ _ Hi j d' Hj Hd') as Hn.
    unfold has_id in Hn. by rewrite bool_decide_eq_false in Hn.
  - apply (delete_todo_found id o); [done|]. by rewrite Hhex.
  - rewrite length_delete by eauto. apply lookup_lt_Some in Hd. lia.
  - intros Hnd. rewrite <-Hidd. by apply delete_removes_id.
Qed.

Lemma X2_delete_present_id_witness :
  ∃ i d,
    [other_todo; sample_todo] !! i = Some d ∧ _id d = lit "65f0a1b2c3d4e5f6a7b8c9d1" ∧
    (∀ j d', j < i → [other_todo; sample_todo] !! j = Some d' → _id d' ≠ lit "65f0a1b2c3d4e5f6a7b8c9d1") ∧
    delete_todo (lit "65f0a1b2c3d4e5f6a7b8c9d1") [other_todo; sample_todo]
      = (mkRes 200 (JMessage (lit "Todo deleted")), delete i [other_todo; sample_todo]) ∧
    S (length (delete i [other_todo; sample_todo])) = 2 ∧
    (NoDup (_id <$> [other_todo; sample_todo]) →
     lit "65f0a1b2c3d4e5f6a7b8c9d1" ∉ _id <$> delete i [other_todo; sample_todo]).
Proof.
  apply (X2_delete_present_id (lit "65f0a1b2c3d4e5f6a7b8c9d1") [other_todo; sample_todo]).
  apply (bool_decide_unpack _). by vm_compute.
Defined.

(** X3.  A create request without a task, or with the empty string as its
    task, answers 400 with the validation message and stores nothing.  With
    a task that is not empty it answers 201 and appends one record: the
    identifier and creation time are the server's, the task and due date are
    the body's, and [completed] is false whatever the body says about it. *)
Theorem X3_post_validates_and_defaults (oid : ObjectId) (now : Z) (b : body)
    (c : list Todo) :
  (b_task b = None ∨ b_task b = Some (lit "") →
     post_todos oid now b c = (mkRes 400 (JMessage required_message), c)) ∧
  (∀ t, b_task b = Some t → t ≠ lit "" →
     ∃ d : Todo,
       post_todos oid now b c = (mkRes 201 (JTodo d), c ++ [d]) ∧
       _id d = hex oid ∧ task d = t ∧ dueDate d = b_dueDate b ∧
       completed d = false ∧ createdAt d = now).
Proof.
  split.
  - apply post_todos_invalid.
  - intros t Hb Ht. by apply post_todos_valid.
Qed.

Lemma X3_post_validates_and_defaults_witness :
  post_todos (objectid "65f0a1b2c3d4e5f6a7b8c9d3" I) 7
      (mkBody None (Some true) (Some (lit "2024-01-01"))) [sample_todo]
    = (mkRes 400 (JMessage required_message), [sample_todo]) ∧
  post_todos (objectid "65f0a1b2c3d4e5f6a7b8c9d3" I) 7
      (mkBody (Some (lit "")) None None) [sample_todo]
    = (mkRes 400 (JMessage required_message), [sample_todo]) ∧
  ∃ d : Todo,
    post_todos (objectid "65f0a1b2c3d4e5f6a7b8c9d3" I) 7
        (mkBody (Some (lit "Buy bread")) (Some true) None) [sample_todo]
      = (mkRes 201 (JTodo d), [sample_todo] ++ [d]) ∧
    _id d = lit "65f0a1b2c3d4e5f6a7b8c9d3" ∧ task d = lit "Buy bread" ∧
    dueDate d = None ∧ completed d = false ∧ createdAt d = 7%Z.
Proof.
  split_and!.
  - apply (proj1 (X3_post_validates_and_defaults (objectid "65f0a1b2c3d4e5f6a7b8c9d3" I) 7
             (mkBody None (Some true) (Some (lit "2024-01-01"))) [sample_todo])).
    left. reflexivity.
  - apply (proj1 (X3_post_validates_and_defaults (objectid "65f0a1b2c3d4e5f6a7b8c9d3" I) 7
             (mkBody (Some (lit "")) None None) [sample_todo])).
    right. reflexivity.
  - apply (proj2 (X3_post_validates_and_defaults (objectid "65f0a1b2c3d4e5f6a7b8c9d3" I) 7
             (mkBody (Some (lit "Buy bread")) (Some true) None) [sample_todo])
             (lit "Buy bread")).
    + reflexivity.
    + vm_compute. intros H. discriminate H.
Defined.

Lemma failed_request_frame (oid : ObjectId) (now : Z) (rq : request) (c : list Todo) :
  is_ok (status (serve oid now rq c).1) = false →
  (serve oid now rq c).2 = c.
Proof.
  destruct rq as [|b|id b|id|]; simpl; try done.
  - by destruct (post_todos_cases oid now b c) as [-> | (t & d & _ & _ & -> & _)].
  - by destruct (put_todo_cases id b c)
      as [(m & ->) | [-> | (o & i & old & new & _ & _ & _ & _ & _ & ->)]].
  - by destruct (delete_todo_cases id c)
      as [(m & ->) | [-> | (o & i & old & _ & _ & _ & _ & ->)]].
Qed.

(** X4.  A request that is not answered with a 2xx status leaves the
    collection exactly as it was: no route changes the store and then
    reports a failure.  That covers the 400 of a refused create or update
    (validation, cast error), the 404 of an identifier that is not stored
    and the 500 of a delete with an identifier that is no ObjectId. *)
Theorem X4_failed_request_changes_nothing (oid : ObjectId) (now : Z) (rq : request)
    (c : list Todo) :
  is_ok (status (serve oid now rq c).1) = false →
  (serve oid now rq c).2 = c.
Proof. apply failed_request_frame. Qed.

Lemma X4_failed_request_changes_nothing_witness :
  (serve (objectid "65f0a1b2c3d4e5f6a7b8c9d3" I) 7
     (PUT_todo (lit "65f0a1b2c3d4e5f6a7b8c9d1") (mkBody (Some (lit "")) (Some true) None))
     [sample_todo]).2 = [sample_todo] ∧
  (serve (objectid "65f0a1b2c3d4e5f6a7b8c9d3" I) 7 (DELETE_todo (lit "65f0a2"))
     [sample_todo]).2 = [sample_todo].
Proof.
  split.
  - apply (X4_failed_request_changes_nothing (objectid "65f0a1b2c3d4e5f6a7b8c9d3" I) 7).
    reflexivity.
  - apply (X4_failed_request_changes_nothing (objectid "65f0a1b2c3d4e5f6a7b8c9d3" I) 7).
    reflexivity.
Defined.

Lemma put_todo_frame (id : Id) (b : body) (c : list Todo) :
  _id <$> (put_todo id b c).2 = _id <$> c ∧
  createdAt <$> (put_todo id b c).2 = createdAt <$> c.
Proof.
  destruct (put_todo_cases id b c)
    as [(m & ->) | [-> | (o & i & old & new & _ & _ & Hold & _ & Hv & ->)]];
    [done|done|].
  apply validate_assign_fields in Hv as (Hn & Hc & _). simpl.
  rewrite !list_fmap_insert, Hn, Hc.
  split; apply list_insert_id; by rewrite list_lookup_fmap, Hold.
Qed.

(** X5.  An update never changes which identifiers are stored, nor any
    creation time: after any update request, answered 200 or not, the
    collection has the same identifiers and the same creation times at the
    same positions. *)
Theorem X5_put_keeps_ids_and_creation_times (id : Id) (b : body) (c : list Todo) :
  _id <$> (put_todo id b c).2 = _id <$> c ∧
  createdAt <$> (put_todo id b c).2 = createdAt <$> c.
Proof. apply put_todo_frame. Qed.

(** Saving the same assignments on the saved record gives the saved record
    again. *)
Lemma validate_assign_fields_twice (b : body) (old new : Todo) :
  validate (assign_fields b (hydrate old)) (createdAt old) = Some new →
  validate (assign_fields b (hydrate new)) (createdAt new) = Some new.
Proof.
  intros Hv.
  assert (b_task b ≠ Some []) as Hb.
  { intros Hb. by rewrite (validate_assign_fields_None b old Hb) in Hv. }
  destruct (validate_assign_fields_Some b new Hb) as (new' & Hnew').
  rewrite Hnew'. f_equal.
  destruct (validate_assign_fields b old new Hv) as (? & ? & Ht & Hc & Hd).
  destruct (validate_assign_fields b new new' Hnew') as (? & ? & Ht' & Hc' & Hd').
  apply Todo_eq; [done| | | |done].
  - rewrite Ht', Ht. by destruct (b_task b).
  - rewrite Hd', Hd. by destruct (b_dueDate b).
  - rewrite Hc', Hc. by destruct (b_completed b).
Qed.

(** X6.  The update route is idempotent: the same update sent a second
    time gets the same answer and leaves the collection as the first one
    left it. *)
Theorem X6_put_is_idempotent (id : Id) (b : body) (c : list Todo) :
  put_todo id b (put_todo id b c).2 = put_todo id b c.
Proof.
  destruct (put_todo_cases id b c)
    as [(m & H) | [H | (o & i & old & new & Ho & Hi & Hold & Hid & Hv & H)]];
    rewrite H; simpl; [done|done|].
  rewrite (put_todo_found id o b _ i new Ho).
  - by rewrite (validate_assign_fields_twice b old new Hv), list_insert_insert_eq.
  - apply findIndex_insert; [done|]. apply has_id_true.
    apply validate_assign_fields in Hv as (-> & _). done.
  - apply list_lookup_insert_eq. by eapply lookup_lt_Some.
Qed.

(** X7.  A record that was created is listed: after a create request with
    a task that is not empty, the list route answers 200 with one record
    more than were stored before, the new record among them. *)
Theorem X7_created_record_is_listed (oid : ObjectId) (now : Z) (b : body)
    (c : list Todo) (t : jsstring) :
  b_task b = Some t → t ≠ lit "" →
  ∃ l d,
    get_todos (post_todos oid now b c).2
      = (mkRes 200 (JTodos l), (post_todos oid now b c).2) ∧
    d ∈ l ∧
    _id d = hex oid ∧ task d = t ∧ dueDate d = b_dueDate b ∧
    completed d = false ∧ createdAt d = now ∧
    length l = S (length c).
Proof.
  intros Hb Ht.
  destruct (get_todos_sorted (post_todos oid now b c).2) as (l & Hl & Hp & _).
  destruct (post_todos_valid oid now b t c Hb Ht) as (d & E & Hd).
  rewrite E in Hp. simpl in Hp.
  exists l, d. destruct Hd as (? & ? & ? & ? & ?). split_and!; try done.
  - rewrite Hp. apply elem_of_app. right. apply list_elem_of_here.
  - rewrite Hp, length_app. simpl. lia.
Qed.

Lemma X7_created_record_is_listed_witness :
  ∃ l d,
    get_todos (post_todos (objectid "65f0a1b2c3d4e5f6a7b8c9d3" I) 7
                 (mkBody (Some (lit "Buy bread")) None None) [sample_todo]).2
      = (mkRes 200 (JTodos l),
         (post_todos (objectid "65f0a1b2c3d4e5f6a7b8c9d3" I) 7
            (mkBody (Some (lit "Buy bread")) None None) [sample_todo]).2) ∧
    d ∈ l ∧
    _id d = lit "65f0a1b2c3d4e5f6a7b8c9d3" ∧ task d = lit "Buy bread" ∧
    dueDate d = None ∧ completed d = false ∧ createdAt d = 7%Z ∧
    length l = 2.
Proof.
  apply (X7_created_record_is_listed (objectid "65f0a1b2c3d4e5f6a7b8c9d3" I) 7
           (mkBody (Some (lit "Buy bread")) None None) [sample_todo] (lit "Buy bread")).
  - reflexivity.
  - vm_compute. intros H. discriminate H.
Defined.

(** X8.  With unique identifiers a delete is final: sent a second time, a
    delete of an ObjectId answers 404 and changes nothing.  A delete of an
    identifier that is no ObjectId answers 500 the first time and the
    second, and changes nothing either time. *)
Theorem X8_second_delete (id : Id) (c : list Todo) :
  NoDup (_id <$> c) →
  if is_objectid (lower_hex <$> id)
  then delete_todo id (delete_todo id c).2
       = (mkRes 404 (JMessage (lit "Todo not found")), (delete_todo id c).2)
  else delete_todo id c = (mkRes 500 (JMessage (cast_error_message id)), c) ∧
       delete_todo id (delete_todo id c).2
       = (mkRes 500 (JMessage (cast_error_message id)), c).
Proof.
  intros Hnd.
  destruct (castObjectId id) as [o|] eqn:E.
  - assert (is_objectid (lower_hex <$> id) = true) as ->.
    { rewrite <-(castObjectId_hex _ _ E). apply hex_objectid. }
    destruct (delete_todo_cases id c)
      as [(m & H) | [H | (o' & i & old & Ho & Hi & Hold & Hid & H)]].
    + unfold delete_todo, findByIdAndDelete in H. rewrite E in H.
      destruct (findIndex _ c) as [j|]; [|done]. by destruct (c !! j).
    + by rewrite H.
    + rewrite H. simpl. assert (o' = o) as -> by congruence.
      apply (delete_todo_absent id o); [done|].
      rewrite <-Hid. by apply delete_removes_id.
  - rewrite (proj1 (castObjectId_None id) E).
    rewrite (delete_todo_malformed id c E). simpl.
    split; [done|]. by apply delete_todo_malformed.
Qed.

Lemma X8_second_delete_witness :
  delete_todo (lit "65f0a1b2c3d4e5f6a7b8c9d1")
    (delete_todo (lit "65f0a1b2c3d4e5f6a7b8c9d1") [other_todo; sample_todo]).2
  = (mkRes 404 (JMessage (lit "Todo not found")),
     (delete_todo (lit "65f0a1b2c3d4e5f6a7b8c9d1") [other_todo; sample_todo]).2).
Proof.
  apply (X8_second_delete (lit "65f0a1b2c3d4e5f6a7b8c9d1") [other_todo; sample_todo]).
  apply (bool_decide_unpack _). by vm_compute.
Defined.

(** The identifiers stored after a request are among those stored before,
    in their order, with the generator's one at the end for a create. *)
Lemma serve_ids_sublist (oid : ObjectId) (now : Z) (rq : request) (c : list Todo) :
  (_id <$> (serve oid now rq c).2)
    `sublist_of` (_id <$> c) ++ minted [(oid, now, rq)].
Proof.
  destruct rq as [|b|id b|id|]; simpl.
  - by rewrite app_nil_r.
  - unfold minted; simpl.
    destruct (post_todos_cases oid now b c) as [-> | (t & d & _ & _ & -> & <- & _)];
      simpl.
    + apply sublist_inserts_r. done.
    + by rewrite fmap_app.
  - rewrite app_nil_r. by rewrite (proj1 (put_todo_frame id b c)).
  - rewrite app_nil_r.
    destruct (delete_todo_cases id c)
      as [(m & ->) | [-> | (o & i & old & _ & _ & _ & _ & ->)]]; simpl; [done|done|].
    rewrite list_fmap_delete. apply sublist_delete.
  - apply sublist_nil_l.
Qed.

Lemma minted_cons x h : minted (x :: h) = minted [x] ++ minted h.
Proof. unfold minted. simpl. by destruct x as [[oid now] []]. Qed.

Lemma serve_all_ids_sublist (h : list (ObjectId * Z * request)) (c : list Todo) :
  (_id <$> (serve_all h c).2) `sublist_of` (_id <$> c) ++ minted h.
Proof.
  revert c. induction h as [|[[oid now] rq] h IH]; intros c.
  - simpl. by rewrite app_nil_r.
  - rewrite minted_cons. simpl.
    pose proof (serve_ids_sublist oid now rq c) as Hs.
    destruct (serve oid now rq c) as [a c1]; simpl in *.
    specialize (IH c1). destruct (serve_all h c1) as [rs c2]; simpl in *.
    etrans; [apply IH|]. rewrite (assoc (++)). by apply sublist_app.
Qed.

(** X9.  Identifiers stay unique.  If the stored identifiers are distinct
    and the generator hands the create requests of a history identifiers
    that are distinct from them and from one another, then after the whole
    history, whatever its requests, the stored identifiers are distinct. *)
Theorem X9_identifiers_stay_unique (h : list (ObjectId * Z * request)) (c : list Todo) :
  NoDup ((_id <$> c) ++ minted h) →
  NoDup (_id <$> (serve_all h c).2).
Proof.
  intros Hnd. eapply sublist_NoDup; [|apply serve_all_ids_sublist]. done.
Qed.

Lemma X9_identifiers_stay_unique_witness :
  NoDup (_id <$> (serve_all sample_history [sample_todo]).2).
Proof.
  apply (X9_identifiers_stay_unique sample_history [sample_todo]).
  apply (bool_decide_unpack _). by vm_compute.
Defined.

(** *** The clock and the order of the list *)

Lemma unique_by {A B} (f : A → B) (l : list A) (x y : A) :
  NoDup (f <$> l) → x ∈ l → y ∈ l → f x = f y → x = y.
Proof.
  intros Hnd (i & Hi)%list_elem_of_lookup (j & Hj)%list_elem_of_lookup E.
  assert (i = j) as ->.
  { apply (NoDup_lookup (f <$> l) i j (f x)); [done|..].
    - by rewrite list_lookup_fmap, Hi.
    - by rewrite list_lookup_fmap, Hj, E. }
  congruence.
Qed.

Lemma ascending_NoDup (l : list Z) : StronglySorted Z.lt l → NoDup l.
Proof.
  induction 1 as [|x l Hs IH Hx]; constructor; [|done].
  intros Hin. rewrite Forall_forall in Hx. specialize (Hx x Hin). lia.
Qed.

Lemma ascending_reverse (c : list Todo) :
  StronglySorted Z.lt (createdAt <$> c) → StronglySorted newest_first (reverse c).
Proof.
  induction c as [|x l IH]; simpl; [constructor|].
  intros [Hx Hl]%StronglySorted_cons. rewrite reverse_cons.
  apply StronglySorted_app_2; [|auto|repeat constructor].
  intros x1 x2 Hx1 ->%list_elem_of_singleton. unfold newest_first.
  rewrite Forall_fmap, Forall_forall in Hx.
  rewrite elem_of_reverse in Hx1. specialize (Hx x1 Hx1). simpl in Hx. lia.
Qed.

Lemma ascending_list_is_reversed (c : list Todo) :
  StronglySorted Z.lt (createdAt <$> c) → merge_sort newest_first c = reverse c.
Proof.
  intros Hasc. apply (StronglySorted_unique_strong newest_first).
  - intros x1 x2 Hx1 Hx2 H12 H21. unfold newest_first in *.
    rewrite merge_sort_Permutation in Hx1. rewrite elem_of_reverse in Hx2.
    apply (unique_by createdAt c); [by apply ascending_NoDup|done|done|lia].
  - apply StronglySorted_merge_sort; apply _.
  - by apply ascending_reverse.
  - by rewrite merge_sort_Permutation, reverse_Permutation.
Qed.

Lemma serve_times_sublist (oid : ObjectId) (now : Z) (rq : request) (c : list Todo) :
  (createdAt <$> (serve oid now rq c).2) `sublist_of` (createdAt <$> c) ++ [now].
Proof.
  destruct rq as [|b|id b|id|]; simpl.
  - by apply sublist_inserts_r.
  - destruct (post_todos_cases oid now b c)
      as [-> | (t & d & _ & _ & -> & _ & _ & _ & _ & <-)]; simpl.
    + by apply sublist_inserts_r.
    + by rewrite fmap_app.
  - rewrite (proj2 (put_todo_frame id b c)). by apply sublist_inserts_r.
  - apply sublist_inserts_r.
    destruct (delete_todo_cases id c)
      as [(m & ->) | [-> | (o & i & old & _ & _ & _ & _ & ->)]]; simpl; [done|done|].
    rewrite list_fmap_delete. apply sublist_delete.
  - apply sublist_nil_l.
Qed.

Lemma clock_cons oid now rq h : clock ((oid, now, rq) :: h) = [now] ++ clock h.
Proof. done. Qed.

Lemma serve_all_times_sublist (h : list (ObjectId * Z * request)) (c : list Todo) :
  (createdAt <$> (serve_all h c).2) `sublist_of` (createdAt <$> c) ++ clock h.
Proof.
  revert c. induction h as [|[[oid now] rq] h IH]; intros c.
  - simpl. by rewrite app_nil_r.
  - rewrite (clock_cons oid now rq h).
    pose proof (serve_times_sublist oid now rq c) as Hs.
    cbn [serve_all]. destruct (serve oid now rq c) as [a c1].
    specialize (IH c1). destruct (serve_all h c1) as [rs c2].
    cbn [fst snd] in *. etrans; [apply IH|].
    rewrite (assoc (++)). by apply sublist_app.
Qed.

(** X10.  With a clock that reads strictly later at each request, the
    list route returns the stored records in the reverse of the order in
    which they were created: the collection after any history from the
    empty store, last created first. *)
Theorem X10_list_is_reverse_insertion_order (h : list (ObjectId * Z * request)) :
  StronglySorted Z.lt (clock h) →
  get_todos (serve_all h []).2
    = (mkRes 200 (JTodos (reverse (serve_all h []).2)), (serve_all h []).2).
Proof.
  intros Hclock. unfold get_todos, find_sorted.
  rewrite ascending_list_is_reversed; [done|].
  eapply sublist_StronglySorted; [apply serve_all_times_sublist|done].
Qed.

Lemma X10_list_is_reverse_insertion_order_witness :
  get_todos (serve_all increasing_history []).2
    = (mkRes 200 (JTodos (reverse (serve_all increasing_history []).2)),
       (serve_all increasing_history []).2).
Proof.
  apply (X10_list_is_reverse_insertion_order increasing_history).
  apply (bool_decide_unpack _). by vm_compute.
Defined.

(** ** Further properties of the client *)

(** *** The formatter *)

Lemma formatTask_props (text : jsstring) :
  length (formatTask text) ≤ 17 ∧
  take 14 (formatTask text) = take 14 text ∧
  formatTask (formatTask text) = formatTask text.
Proof.
  unfold formatTask. destruct (14 <? length text) eqn:E.
  - apply Nat.ltb_lt in E.
    assert (length (take 14 text ++ lit "...") = 17) as Hlen.
    { rewrite length_app, length_take. change (length (lit "...")) with 3. lia. }
    assert (take 14 (take 14 text ++ lit "...") = take 14 text) as Htake.
    { rewrite take_app_le by (rewrite length_take; lia).
      apply take_take. }
    split_and!; [lia|done|].
    rewrite Hlen. simpl. by rewrite Htake.
  - pose proof E as E'. apply Nat.ltb_ge in E'. rewrite E.
    split_and!; [lia|done|done].
Qed.

(** X11.  [formatTask] keeps the first 14 code units of a task, never
    returns more than 17, and is idempotent: a formatted task passes through
    it unchanged, so a stored task that was formatted when it was added is
    shown as it is stored. *)
Theorem X11_formatTask_bounded_idempotent (text : jsstring) :
  length (formatTask text) ≤ 17 ∧
  take 14 (formatTask text) = take 14 text ∧
  formatTask (formatTask text) = formatTask text.
Proof. apply formatTask_props. Qed.

(** X12.  [formatDueDate] never returns the empty string, returns a
    non-empty date as it is, and is idempotent. *)
Theorem X12_formatDueDate_never_empty (due : option jsstring) :
  truthy (formatDueDate due) = true ∧
  formatDueDate (Some (formatDueDate due)) = formatDueDate due ∧
  (∀ c s, formatDueDate (Some (c :: s)) = c :: s).
Proof. by destruct due as [[|c s]|]. Qed.

(** *** Trimming and the submitted task *)

Lemma trimStart_spec (s : jsstring) :
  ∃ pre, s = pre ++ trimStart s ∧ forallb is_ws pre = true ∧
         match trimStart s with [] => True | c :: _ => is_ws c = false end.
Proof.
  induction s as [|c s (pre & Hs & Hpre & Hhd)]; simpl.
  - by exists [].
  - destruct (is_ws c) eqn:Hc.
    + exists (c :: pre). simpl. rewrite Hc, Hpre. split_and!; [by f_equal|done|done].
    + by exists [].
Qed.

Lemma trimEnd_spec (s : jsstring) :
  ∃ post, s = trimEnd s ++ post ∧ forallb is_ws post = true.
Proof.
  unfold trimEnd. destruct (trimStart_spec (rev s)) as (pre & Hs & Hpre & _).
  exists (rev pre). split.
  - rewrite <-rev_app_distr, <-Hs. by rewrite rev_involutive.
  - rewrite forallb_forall in Hpre |- *. intros x Hx. apply Hpre.
    by apply in_rev.
Qed.

(** What [trim] returns is the string without a run of white space at
    either end, and it does not begin with white space. *)
Lemma trim_spec (s : jsstring) :
  ∃ pre post, s = pre ++ trim s ++ post ∧
    forallb is_ws pre = true ∧ forallb is_ws post = true ∧
    match trim s with [] => True | c :: _ => is_ws c = false end.
Proof.
  unfold trim. destruct (trimStart_spec s) as (pre & Hs & Hpre & Hhd).
  destruct (trimEnd_spec (trimStart s)) as (post & Hs' & Hpost).
  exists pre, post. split_and!; try done.
  - by rewrite <-Hs'.
  - destruct (trimEnd (trimStart s)) as [|c r] eqn:E; [done|].
    rewrite Hs' in Hhd. done.
Qed.

Lemma fetch_sent v rq w : sent (fetch v rq w).2 = sent w ++ [rq].
Proof.
  unfold fetch. destruct (online v); [|done].
  by destruct (deliver v rq (db w)).
Qed.

Lemma formatTask_head c r : ∃ r', formatTask (c :: r) = c :: r'.
Proof. unfold formatTask. destruct (14 <? length (c :: r)); simpl; eauto. Qed.

Lemma run_addTodo_sent text due m sched w :
  sent (run sched (addTodo text due m) w).2
    = sent w ++ [POST_todos (mkBody (Some (formatTask text)) None
                                    (Some (formatDueDate due)))].
Proof.
  unfold addTodo. simpl.
  pose proof (fetch_sent (sched (length (sent w)))
    (POST_todos (mkBody (Some (formatTask text)) None (Some (formatDueDate due)))) w) as Hs.
  destruct (fetch _ _ w) as [x w']. simpl in Hs. by destruct x.
Qed.

(** X13.  Whatever the inputs hold and whatever the network does, the
    submit handler sends nothing or one create request; the task of that
    request is not empty, does not begin with white space and has at most 17
    code units, its due date is not empty, and it says nothing about
    [completed]. *)
Theorem X13_handleAddTodo_request (ui : UIManager) (sched : nat → env) (w : world) :
  let w' := (run sched (handleAddTodo ui) w).2 in
  sent w' = sent w ∨
  ∃ c r d,
    sent w' = sent w ++ [POST_todos (mkBody (Some (c :: r)) None (Some d))] ∧
    is_ws c = false ∧ length (c :: r) ≤ 17 ∧ truthy d = true.
Proof.
  intros w'. subst w'. unfold handleAddTodo.
  destruct (str_eqb (trim (taskInput ui)) (lit "")) eqn:E; [by left|right].
  destruct (trim_spec (taskInput ui)) as (pre & post & _ & _ & _ & Hhd).
  destruct (trim (taskInput ui)) as [|c r] eqn:Ht; [done|].
  destruct (formatTask_head c r) as [r' Hr'].
  exists c, r', (formatDueDate (Some (dateInput ui))).
  rewrite run_bind.
  pose proof (run_addTodo_sent (c :: r) (Some (dateInput ui)) (todoManager ui) sched w) as Hs.
  destruct (run sched (addTodo (c :: r) (Some (dateInput ui)) (todoManager ui)) w)
    as [[cpl m] w1].
  cbn [snd] in Hs. split_and!.
  - rewrite <-Hr'. destruct cpl; exact Hs.
  - done.
  - rewrite <-Hr'. apply formatTask_props.
  - by destruct (dateInput ui).
Qed.

(** *** The manager and the store *)

Lemma filter_Permutation_bool {A} (p : A → bool) (l k : list A) :
  l ≡ₚ k → List.filter p l ≡ₚ List.filter p k.
Proof.
  induction 1 as [|x l k _ IH|x y l|l k j _ IH1 _ IH2]; simpl.
  - done.
  - destruct (p x); by rewrite IH.
  - destruct (p x), (p y); try done. apply perm_swap.
  - by etrans.
Qed.

Lemma filter_all {A} (p : A → bool) (l : list A) :
  (∀ x, x ∈ l → p x = true) → List.filter p l = l.
Proof.
  induction l as [|x l IH]; simpl; [done|]. intros H.
  rewrite (H x (list_elem_of_here _ _)). f_equal. apply IH.
  intros y Hy. apply H. by apply list_elem_of_further.
Qed.

Lemma insert_Permutation_same {A} (l k : list A) (i j : nat) (d x : A) :
  l !! j = Some d → k !! i = Some d → l ≡ₚ k → <[j:=x]> l ≡ₚ <[i:=x]> k.
Proof.
  intros Hl Hk Hp.
  assert (delete j l ≡ₚ delete i k) as Hd.
  { apply (Permutation_cons_inv (a := d)).
    by rewrite <-(delete_Permutation l j d Hl), <-(delete_Permutation k i d Hk). }
  rewrite (insert_take_drop l j x) by (by eapply lookup_lt_Some).
  rewrite (insert_take_drop k i x) by (by eapply lookup_lt_Some).
  rewrite <-!Permutation_middle. rewrite <-!delete_take_drop. by rewrite Hd.
Qed.

Lemma id_is_true (id : Id) (t : Todo) :
  id_is id t = true ↔ truthy (_id t) = true ∧ _id t = id.
Proof.
  unfold id_is, str_eqb. destruct (truthy (_id t)).
  - rewrite bool_decide_eq_true. split; [by intros ->|by intros [_ ->]].
  - split; [done|by intros [? _]].
Qed.

(** On records of the API the client's test of an identifier and the
    server's agree. *)
Lemma id_is_has_id (id : Id) (t : Todo) : id_is id t = has_id id t.
Proof. unfold id_is, has_id, str_eqb. by rewrite Todo_id_truthy. Qed.

(** In a cache that agrees with the store, the record the client finds
    for an identifier is the record the server finds. *)
Lemma sync_same_record (m : TodoManager) (w : world) (id : Id) (i : nat) (d : Todo) :
  in_sync m w → findIndex (has_id id) (db w) = Some i → db w !! i = Some d →
  ∃ j, findIndex (id_is id) (todos m) = Some j ∧ todos m !! j = Some d ∧
       List.find (id_is id) (todos m) = Some d.
Proof.
  intros (Hp & Hnd & Htr) Hi Hd.
  destruct (findIndex_Some _ _ _ Hi) as (d' & Hd' & Hid & _).
  assert (d' = d) as -> by congruence. apply has_id_true in Hid.
  assert (d ∈ db w) as Hin by by eapply list_elem_of_lookup_2.
  assert (id_is id d = true) as Hd_is.
  { apply id_is_true. split; [|done]. rewrite Forall_forall in Htr. by apply Htr. }
  destruct (findIndex (id_is id) (todos m)) as [j|] eqn:Hj.
  - destruct (findIndex_Some _ _ _ Hj) as (t & Ht & Ht_is & Hf).
    apply id_is_true in Ht_is as [_ Ht_id].
    assert (t = d) as ->.
    { apply (unique_by _id (db w)); [done| |done|congruence].
      rewrite <-Hp. by eapply list_elem_of_lookup_2. }
    eauto.
  - pose proof (proj1 (findIndex_None _ _) Hj d) as Hn.
    rewrite Hp in Hn. specialize (Hn Hin). congruence.
Qed.

(** The other direction: a record the client finds is stored under the
    identifier asked for. *)
Lemma sync_found_is_stored (m : TodoManager) (w : world) (id : Id) (t : Todo) :
  in_sync m w → List.find (id_is id) (todos m) = Some t →
  ∃ i, findIndex (has_id id) (db w) = Some i ∧ db w !! i = Some t.
Proof.
  intros Hsync Hf. pose proof Hsync as (Hp & Hnd & Htr).
  destruct (find_Some_findIndex _ _ _ Hf) as (j & Hj & Ht & Ht_is).
  apply id_is_true in Ht_is as [_ Ht_id].
  assert (t ∈ db w) as Hin by (rewrite <-Hp; by eapply list_elem_of_lookup_2).
  destruct (has_id_present id (db w)) as (i & d & Hi & Hd & Hid).
  { rewrite <-Ht_id. by apply list_elem_of_fmap_2. }
  exists i. split; [done|]. rewrite Hd. f_equal.
  apply (unique_by _id (db w)); [done| |done|congruence].
  by eapply list_elem_of_lookup_2.
Qed.

(** An update keeps the agreement. *)
Lemma sync_put (m : TodoManager) (w : world) (id : Id) (i : nat) (d new : Todo) s :
  in_sync m w → findIndex (has_id id) (db w) = Some i → db w !! i = Some d →
  _id new = _id d →
  in_sync (mkManager (replace_by_id id new (todos m)))
          (mkWorld (<[i:=new]> (db w)) s).
Proof.
  intros Hsync Hi Hd Hnew. pose proof Hsync as (Hp & Hnd & Htr).
  destruct (sync_same_record m w id i d Hsync Hi Hd) as (j & Hj & Hjd & _).
  unfold in_sync, replace_by_id. rewrite Hj. cbn [todos db].
  split_and!.
  - by apply (insert_Permutation_same _ _ _ _ d).
  - rewrite list_fmap_insert, Hnew, list_insert_id; [done|].
    by rewrite list_lookup_fmap, Hd.
  - apply Forall_insert; [done|]. rewrite Hnew.
    rewrite Forall_forall in Htr. apply Htr. by eapply list_elem_of_lookup_2.
Qed.

(** A delete keeps the agreement. *)
Lemma sync_delete (m : TodoManager) (w : world) (id : Id) (i : nat) (d : Todo) s :
  in_sync m w → findIndex (has_id id) (db w) = Some i → db w !! i = Some d →
  in_sync (mkManager (List.filter (λ todo, negb (id_is id todo)) (todos m)))
          (mkWorld (delete i (db w)) s).
Proof.
  intros Hsync Hi Hd. pose proof Hsync as (Hp & Hnd & Htr).
  destruct (findIndex_Some _ _ _ Hi) as (d' & Hd' & Hid & _).
  assert (d' = d) as -> by congruence. apply has_id_true in Hid.
  assert (d ∈ db w) as Hin by by eapply list_elem_of_lookup_2.
  pose proof (delete_Permutation (db w) i d Hd) as Hperm.
  unfold in_sync. cbn [todos db]. split_and!.
  - rewrite (filter_Permutation_bool _ _ _ Hp), (filter_Permutation_bool _ _ _ Hperm).
    simpl. assert (id_is id d = true) as ->.
    { apply id_is_true. split; [|done]. rewrite Forall_forall in Htr. by apply Htr. }
    simpl. rewrite filter_all; [done|].
    intros x Hx. apply negb_true_iff. destruct (id_is id x) eqn:E; [|done].
    apply id_is_true in E as [_ E].
    rewrite Hperm in Hnd. rewrite fmap_cons in Hnd.
    apply NoDup_cons in Hnd as [Hnd _]. destruct Hnd.
    rewrite Hid, <-E. by apply list_elem_of_fmap_2.
  - eapply sublist_NoDup; [done|]. rewrite list_fmap_delete. apply sublist_delete.
  - by apply Forall_delete.
Qed.

(** *** Where a request arrives *)

(** A request for an ObjectId in the canonical form arrives at the routes
    with a parameter, and the parameter is that identifier. *)
Lemma locate_objectid v id : is_objectid id = true → locate v id = Item id.
Proof.
  intros Hid. unfold locate. rewrite (is_objectid_plain id Hid).
  by destruct id.
Qed.

Lemma locate_canonical v id p o :
  is_objectid id = true → locate v id = Item p → castObjectId p = Some o →
  p = id ∧ hex o = id.
Proof.
  intros Hid Hloc Ho. rewrite (locate_objectid v id Hid) in Hloc.
  injection Hloc as <-. split; [done|].
  by rewrite (castObjectId_hex _ _ Ho), is_objectid_lower.
Qed.

(** What [fetch] returns, route by route. *)
Lemma fetch_offline v rq w :
  online v = false →
  fetch v rq w = (Rejected (lit "Failed to fetch"), mkWorld (db w) (sent w ++ [rq])).
Proof. intros Hv. unfold fetch. by rewrite Hv. Qed.

Lemma fetch_GET v w :
  online v = true →
  fetch v GET_todos w
    = (Ok 200 (merge_sort newest_first (db w)), mkWorld (db w) (sent w ++ [GET_todos])).
Proof. intros Hv. unfold fetch. by rewrite Hv. Qed.

Lemma fetch_POST_cases v b w :
  online v = true →
  ((b_task b = None ∨ b_task b = Some []) ∧
   fetch v (POST_todos b) w
     = (NotOk 400, mkWorld (db w) (sent w ++ [POST_todos b]))) ∨
  (∃ t d, b_task b = Some t ∧ t ≠ [] ∧
     fetch v (POST_todos b) w
       = (Ok 201 d, mkWorld (db w ++ [d]) (sent w ++ [POST_todos b])) ∧
     _id d = hex (oid v) ∧ task d = t ∧ dueDate d = b_dueDate b ∧
     completed d = false ∧ createdAt d = now v).
Proof.
  intros Hv. unfold fetch. rewrite Hv. simpl.
  destruct (b_task b) as [[|x t]|] eqn:Hb.
  - left. split; [by right|]. rewrite post_todos_invalid by (by right). done.
  - right. destruct (post_todos_valid (oid v) (now v) b (x :: t) (db w) Hb)
      as (d & -> & Hd); [done|].
    exists (x :: t), d. split; [done|]. split; [done|]. split; [done|]. exact Hd.
  - left. split; [by left|]. rewrite post_todos_invalid by (by left). done.
Qed.

(** An update is answered 200 only when the request arrives at the update
    route with a parameter that casts to a stored identifier and the record
    passes validation; otherwise nothing is stored. *)
Lemma fetch_PUT_cases v id b w :
  online v = true →
  (∃ st, fetch v (PUT_todo id b) w
           = (NotOk st, mkWorld (db w) (sent w ++ [PUT_todo id b]))) ∨
  (∃ p o i old new,
     locate v id = Item p ∧ castObjectId p = Some o ∧
     findIndex (has_id (hex o)) (db w) = Some i ∧ db w !! i = Some old ∧
     _id old = hex o ∧
     validate (assign_fields b (hydrate old)) (createdAt old) = Some new ∧
     fetch v (PUT_todo id b) w
       = (Ok 200 new, mkWorld (<[i:=new]> (db w)) (sent w ++ [PUT_todo id b]))).
Proof.
  intros Hv. unfold fetch. rewrite Hv. simpl.
  destruct (locate v id) as [p| | |] eqn:Hloc; try (left; by eexists).
  simpl.
  destruct (put_todo_cases p b (db w))
    as [(m & ->) | [-> | (o & i & old & new & Ho & Hi & Hold & Hid & Hval & ->)]].
  - left. by eexists.
  - left. by eexists.
  - right. exists p, o, i, old, new. done.
Qed.

(** A delete is answered 200 when it arrives at the delete route with a
    parameter that casts to a stored identifier, and then one record goes;
    or when it arrives at the route of the collection, and then all go. *)
Lemma fetch_DELETE_cases v id w :
  online v = true →
  (∃ st, fetch v (DELETE_todo id) w
           = (NotOk st, mkWorld (db w) (sent w ++ [DELETE_todo id]))) ∨
  (∃ p o i old,
     locate v id = Item p ∧ castObjectId p = Some o ∧
     findIndex (has_id (hex o)) (db w) = Some i ∧ db w !! i = Some old ∧
     _id old = hex o ∧
     fetch v (DELETE_todo id) w
       = (Ok 200 (), mkWorld (delete i (db w)) (sent w ++ [DELETE_todo id]))) ∨
  (locate v id = Collection ∧
   fetch v (DELETE_todo id) w
     = (Ok 200 (), mkWorld [] (sent w ++ [DELETE_todo id]))).
Proof.
  intros Hv. unfold fetch. rewrite Hv. simpl.
  destruct (locate v id) as [p| | |] eqn:Hloc; try (left; by eexists).
  - simpl.
    destruct (delete_todo_cases p (db w))
      as [(m & ->) | [-> | (o & i & old & Ho & Hi & Hold & Hid & ->)]].
    + left. by eexists.
    + left. by eexists.
    + right. left. exists p, o, i, old. done.
  - right. right. done.
Qed.

Lemma fetch_DELETE_all v w :
  online v = true →
  fetch v DELETE_todos w = (Ok 200 (), mkWorld [] (sent w ++ [DELETE_todos])).
Proof. intros Hv. unfold fetch. by rewrite Hv. Qed.

(** An update of a stored identifier: the answer is 200 with the saved
    record, or 400 when validation refuses it. *)
Lemma fetch_PUT_stored v id b w (i : nat) (old : Todo) :
  online v = true → findIndex (has_id id) (db w) = Some i → db w !! i = Some old →
  fetch v (PUT_todo id b) w
  = match validate (assign_fields b (hydrate old)) (createdAt old) with
    | Some new =>
        (Ok 200 new, mkWorld (<[i:=new]> (db w)) (sent w ++ [PUT_todo id b]))
    | None => (NotOk 400, mkWorld (db w) (sent w ++ [PUT_todo id b]))
    end.
Proof.
  intros Hv Hi Hold.
  destruct (findIndex_Some _ _ _ Hi) as (x & Hx & Hp & _).
  assert (x = old) as -> by congruence. apply has_id_true in Hp.
  assert (is_objectid id = true) as Hid by (rewrite <-Hp; apply Todo_id_ok).
  destruct (castObjectId_objectid id Hid) as (o & Ho & Hhex).
  unfold fetch. rewrite Hv. simpl. rewrite (locate_objectid v id Hid). simpl.
  rewrite (put_todo_found id o b (db w) i old Ho); [|by rewrite Hhex|done].
  by destruct (validate _ _).
Qed.

Lemma fetch_DELETE_stored v id w (i : nat) :
  online v = true → findIndex (has_id id) (db w) = Some i →
  fetch v (DELETE_todo id) w
    = (Ok 200 (), mkWorld (delete i (db w)) (sent w ++ [DELETE_todo id])).
Proof.
  intros Hv Hi.
  destruct (findIndex_Some _ _ _ Hi) as (x & Hx & Hp & _). apply has_id_true in Hp.
  assert (is_objectid id = true) as Hid by (rewrite <-Hp; apply Todo_id_ok).
  destruct (castObjectId_objectid id Hid) as (o & Ho & Hhex).
  unfold fetch. rewrite Hv. simpl. rewrite (locate_objectid v id Hid). simpl.
  rewrite (delete_todo_found id o (db w) i Ho); [done|by rewrite Hhex].
Qed.

Lemma findIndex_lookup {A} (p : A → bool) (l : list A) (i : nat) :
  findIndex p l = Some i → ∃ x, l !! i = Some x.
Proof. intros (x & ? & _)%findIndex_Some. eauto. Qed.

(** The outcome of the [fetch] in the goal, case by case: for an update
    and a delete of one record, refused, then served, then (for the delete)
    served by the route of the collection, then lost. *)
Ltac fetch_cases :=
  let Hv := fresh "Hv" in
  let Hloc := fresh "Hloc" in
  let Ho := fresh "Ho" in
  let Hi := fresh "Hi" in
  let Hd := fresh "Hd" in
  let Hid := fresh "Hid" in
  let Hval := fresh "Hval" in
  let Hb := fresh "Hb" in
  let Ht := fresh "Ht" in
  let Hnew := fresh "Hnew" in
  let st := fresh "st" in
  let p := fresh "p" in
  let o := fresh "o" in
  let i := fresh "i" in
  let d := fresh "d" in
  let new := fresh "new" in
  let t := fresh "t" in
  match goal with
  | |- context [fetch ?v GET_todos ?w] =>
      destruct (online v) eqn:Hv;
      [rewrite (fetch_GET v w Hv) | rewrite (fetch_offline v _ w Hv)]
  | |- context [fetch ?v (POST_todos ?b) ?w] =>
      destruct (online v) eqn:Hv;
      [destruct (fetch_POST_cases v b w Hv)
         as [[Hb ->] | (t & new & Hb & Ht & -> & Hnew)]
      |rewrite (fetch_offline v _ w Hv)]
  | |- context [fetch ?v (PUT_todo ?id ?b) ?w] =>
      destruct (online v) eqn:Hv;
      [destruct (fetch_PUT_cases v id b w Hv)
         as [(st & ->) | (p & o & i & d & new & Hloc & Ho & Hi & Hd & Hid & Hval & ->)]
      |rewrite (fetch_offline v _ w Hv)]
  | |- context [fetch ?v (DELETE_todo ?id) ?w] =>
      destruct (online v) eqn:Hv;
      [destruct (fetch_DELETE_cases v id w Hv)
         as [(st & ->) | [(p & o & i & d & Hloc & Ho & Hi & Hd & Hid & ->) | [Hloc ->]]]
      |rewrite (fetch_offline v _ w Hv)]
  | |- context [fetch ?v DELETE_todos ?w] =>
      destruct (online v) eqn:Hv;
      [rewrite (fetch_DELETE_all v w Hv) | rewrite (fetch_offline v _ w Hv)]
  end.

(** Every method of the manager, case by case. *)
Ltac method_cases a m :=
  destruct a as [|text due|id text|id|id|]; unfold invoke;
  [unfold fetchTodos|unfold addTodo|unfold editTodo|unfold deleteTodo
  |unfold toggleTodoStatus; destruct (List.find (id_is id) (todos m)) as [todo|] eqn:Hfind
  |unfold clearAllTodos];
  cbn [bind run]; try fetch_cases; cbn [bind run fst snd todos db sent].

Lemma throw_keeps_cache_and_store (a : call) (m : TodoManager)
    (sched : nat → env) (w : world) :
  (run sched (invoke a m) w).1.1 = true →
  (run sched (invoke a m) w).1.2 = m ∧ db (run sched (invoke a m) w).2 = db w.
Proof. method_cases a m; done. Qed.

(** X14.  A method of the manager that throws has changed nothing: the
    cache is the one it started with and the collection is as it was,
    whether the request was lost or the server refused it. *)
Theorem X14_throw_keeps_cache_and_store (a : call) (m : TodoManager)
    (sched : nat → env) (w : world) :
  (run sched (invoke a m) w).1.1 = true →
  (run sched (invoke a m) w).1.2 = m ∧ db (run sched (invoke a m) w).2 = db w.
Proof. apply throw_keeps_cache_and_store. Qed.

Lemma X14_throw_keeps_cache_and_store_witness :
  (run quiet (invoke (CallEdit (lit "65f0a1b2c3d4e5f6a7b8c9d9") (lit "Buy bread"))
                (mkManager [sample_todo])) (mkWorld [sample_todo] [])).1.2
    = mkManager [sample_todo] ∧
  db (run quiet (invoke (CallEdit (lit "65f0a1b2c3d4e5f6a7b8c9d9") (lit "Buy bread"))
                   (mkManager [sample_todo])) (mkWorld [sample_todo] [])).2
    = [sample_todo].
Proof.
  apply (X14_throw_keeps_cache_and_store (CallEdit (lit "65f0a1b2c3d4e5f6a7b8c9d9") (lit "Buy bread"))
           (mkManager [sample_todo]) quiet (mkWorld [sample_todo] [])).
  reflexivity.
Defined.

(** The identifier of a cached record is an ObjectId in the canonical
    form. *)
Lemma cached_id_objectid (id : Id) (l : list Todo) :
  id ∈ _id <$> l → is_objectid id = true.
Proof. intros (d & -> & _)%list_elem_of_fmap. apply Todo_id_ok. Qed.

Lemma found_id_objectid (id : Id) (l : list Todo) (t : Todo) :
  List.find (id_is id) l = Some t → is_objectid id = true ∧ _id t = id.
Proof.
  intros (_ & _ & _ & [_ Ht]%id_is_true)%find_Some_findIndex.
  split; [|done]. rewrite <-Ht. apply Todo_id_ok.
Qed.

Lemma call_keeps_sync (a : call) (m : TodoManager) (sched : nat → env) (w : world) :
  in_sync m w → fresh sched w → from_table a m →
  in_sync (run sched (invoke a m) w).1.2 (run sched (invoke a m) w).2.
Proof.
  intros Hsync [Htruthy Hfresh] Hfrom. pose proof Hsync as (Hp & Hnd & Htr).
  method_cases a m; try exact Hsync.
  - unfold in_sync; cbn [todos db]. split_and!; [|done|done].
    apply merge_sort_Permutation.
  - destruct Hnew as (Hnid & _).
    unfold in_sync; cbn [todos db]. split_and!.
    + rewrite Hp. apply Permutation_cons_append.
    + rewrite fmap_app. apply NoDup_app. split_and!; [done| |apply NoDup_singleton].
      intros x Hx ->%list_elem_of_singleton. simpl in Hx. rewrite Hnid in Hx. done.
    + apply Forall_app. split; [done|]. repeat constructor. apply Todo_id_truthy.
  - simpl in Hfrom.
    destruct (locate_canonical _ id p o (cached_id_objectid id _ Hfrom) Hloc Ho)
      as [-> Hhex].
    rewrite Hhex in Hi.
    apply (sync_put m w id i d); [done..|].
    by apply validate_assign_fields in Hval as (? & _).
  - simpl in Hfrom.
    destruct (locate_canonical _ id p o (cached_id_objectid id _ Hfrom) Hloc Ho)
      as [-> Hhex].
    rewrite Hhex in Hi. by apply (sync_delete m w id i d).
  - simpl in Hfrom.
    rewrite (locate_objectid _ id (cached_id_objectid id _ Hfrom)) in Hloc.
    discriminate Hloc.
  - destruct (found_id_objectid id _ todo Hfind) as [Hobj _].
    destruct (locate_canonical _ id p o Hobj Hloc Ho) as [-> Hhex].
    rewrite Hhex in Hi.
    apply (sync_put m w id i d); [done..|].
    by apply validate_assign_fields in Hval as (? & _).
  - unfold in_sync; cbn [todos db]. split_and!; [done|constructor|constructor].
Qed.

(** X15.  The cache stays in agreement with the store.  If the cache holds
    the stored records and the stored identifiers are distinct and not
    empty, then after any one method of the manager (fetch, add, edit,
    delete, toggle or clear), with the network up or down, the same is true
    again.  The server only has to take a new, non-empty identifier for a
    record it creates, and an edit or a delete has to name a cached record,
    as the buttons of the table do.  (A delete of the empty identifier
    arrives at the route that deletes all, and the cache keeps its
    records.) *)
Theorem X15_methods_keep_cache_in_sync (a : call) (m : TodoManager)
    (sched : nat → env) (w : world) :
  in_sync m w → fresh sched w → from_table a m →
  in_sync (run sched (invoke a m) w).1.2 (run sched (invoke a m) w).2.
Proof. apply call_keeps_sync. Qed.

Lemma X15_methods_keep_cache_in_sync_witness :
  in_sync
    (run quiet (invoke (CallDelete (lit "65f0a1b2c3d4e5f6a7b8c9d1")) (mkManager [sample_todo; other_todo]))
       (mkWorld [other_todo; sample_todo] [])).1.2
    (run quiet (invoke (CallDelete (lit "65f0a1b2c3d4e5f6a7b8c9d1")) (mkManager [sample_todo; other_todo]))
       (mkWorld [other_todo; sample_todo] [])).2.
Proof.
  apply (X15_methods_keep_cache_in_sync (CallDelete (lit "65f0a1b2c3d4e5f6a7b8c9d1"))
           (mkManager [sample_todo; other_todo]) quiet
           (mkWorld [other_todo; sample_todo] [])).
  - split_and!.
    + apply perm_swap.
    + apply (bool_decide_unpack _). by vm_compute.
    + by repeat constructor.
  - split; [reflexivity|]. apply (bool_decide_unpack _). by vm_compute.
  - unfold from_table. apply (bool_decide_unpack _). by vm_compute.
Defined.

(** Without that condition the agreement can be lost: deleting the empty
    identifier empties the collection and leaves the cache as it was. *)
Example delete_empty_id_deletes_all :
  let r := run quiet (invoke (CallDelete (lit "")) (mkManager [sample_todo]))
             (mkWorld [sample_todo] []) in
  r.1.1 = false ∧ todos r.1.2 = [sample_todo] ∧ db r.2 = [].
Proof. by vm_compute. Qed.

(** *** The order of the cache *)

Lemma newest_first_by_time (l : list Todo) :
  StronglySorted newest_first l ↔ StronglySorted (flip Z.le) (createdAt <$> l).
Proof.
  induction l as [|x l IH].
  - split; constructor.
  - rewrite fmap_cons, !StronglySorted_cons, IH, Forall_fmap. done.
Qed.

Lemma replace_keeps_order (l : list Todo) (j : nat) (d new : Todo) :
  l !! j = Some d → createdAt new = createdAt d →
  StronglySorted newest_first l → StronglySorted newest_first (<[j:=new]> l).
Proof.
  intros Hj Hnew. rewrite !newest_first_by_time, list_fmap_insert, Hnew.
  rewrite list_insert_id; [done|]. by rewrite list_lookup_fmap, Hj.
Qed.

(** The record an update has saved replaces, in the cache, a record of
    the same creation time, if it replaces one at all. *)
Lemma replace_by_id_keeps_order (m : TodoManager) (w : world) (v : env)
    (id p : Id) (o : ObjectId) (i : nat) (old new : Todo) (b : body) :
  in_sync m w → locate v id = Item p → castObjectId p = Some o →
  findIndex (has_id (hex o)) (db w) = Some i → db w !! i = Some old →
  validate (assign_fields b (hydrate old)) (createdAt old) = Some new →
  StronglySorted newest_first (todos m) →
  StronglySorted newest_first (replace_by_id id new (todos m)).
Proof.
  intros Hsync Hloc Ho Hi Hold Hval Hsorted.
  unfold replace_by_id. destruct (findIndex (id_is id) (todos m)) as [j|] eqn:Hj;
    [|done].
  destruct (findIndex_Some _ _ _ Hj) as (t & Ht & [_ Hid]%id_is_true & _).
  assert (is_objectid id = true) as Hobj by (rewrite <-Hid; apply Todo_id_ok).
  destruct (locate_canonical v id p o Hobj Hloc Ho) as [-> Hhex].
  rewrite Hhex in Hi.
  destruct (sync_same_record m w id i old Hsync Hi Hold) as (j' & Hj' & Hjd & _).
  assert (j' = j) as -> by congruence.
  apply (replace_keeps_order _ _ old); [done| |done].
  by apply validate_assign_fields in Hval as (_ & ? & _).
Qed.

Lemma call_keeps_order (a : call) (m : TodoManager) (sched : nat → env) (w : world) :
  in_sync m w →
  Forall (λ d, (createdAt d ≤ now (sched (length (sent w))))%Z) (db w) →
  StronglySorted newest_first (todos m) →
  StronglySorted newest_first (todos (run sched (invoke a m) w).1.2).
Proof.
  intros Hsync Hclock Hsorted. pose proof Hsync as (Hp & Hnd & Htr).
  method_cases a m; try exact Hsorted.
  - apply StronglySorted_merge_sort; apply _.
  - destruct Hnew as (_ & _ & _ & _ & Hnow).
    constructor; [done|]. rewrite Hp. eapply Forall_impl; [exact Hclock|].
    intros x Hx. unfold newest_first. simpl in Hx. lia.
  - by eapply (replace_by_id_keeps_order m w).
  - eapply sublist_StronglySorted; [apply filter_sublist|done].
  - eapply sublist_StronglySorted; [apply filter_sublist|done].
  - by eapply (replace_by_id_keeps_order m w).
  - constructor.
Qed.

(** X16.  The cache stays newest first.  If the cache agrees with the
    store and is ordered by creation time, newest first, and the server's
    clock at the next request is not behind any stored creation time, then
    after any one method of the manager the cache is again ordered newest
    first. *)
Theorem X16_methods_keep_cache_newest_first (a : call) (m : TodoManager)
    (sched : nat → env) (w : world) :
  in_sync m w →
  Forall (λ d, (createdAt d ≤ now (sched (length (sent w))))%Z) (db w) →
  StronglySorted newest_first (todos m) →
  StronglySorted newest_first (todos (run sched (invoke a m) w).1.2).
Proof. apply call_keeps_order. Qed.

Lemma X16_methods_keep_cache_newest_first_witness :
  StronglySorted newest_first
    (todos (run quiet (invoke (CallAdd (lit "Buy bread") None)
                         (mkManager [other_todo; sample_todo]))
              (mkWorld [sample_todo; other_todo] [])).1.2).
Proof.
  apply (X16_methods_keep_cache_newest_first (CallAdd (lit "Buy bread") None)
           (mkManager [other_todo; sample_todo]) quiet
           (mkWorld [sample_todo; other_todo] [])).
  - split_and!.
    + apply perm_swap.
    + apply (bool_decide_unpack _). by vm_compute.
    + by repeat constructor.
  - by repeat constructor.
  - apply (bool_decide_unpack _). by vm_compute.
Defined.

(** *** Toggling twice *)

Lemma find_insert {A} (p : A → bool) (l : list A) (j : nat) (x : A) :
  findIndex p l = Some j → p x = true → List.find p (<[j:=x]> l) = Some x.
Proof.
  intros Hj Hx. pose proof (findIndex_insert p l j x Hj Hx) as Hj'.
  destruct (findIndex_Some _ _ _ Hj') as (y & Hy & _ & Hf).
  destruct (findIndex_lookup _ _ _ Hj) as [z Hz].
  rewrite list_lookup_insert_eq in Hy by (by eapply lookup_lt_Some).
  congruence.
Qed.

Lemma toggle_back (t : Todo) :
  with_completed (negb (negb (completed t))) (with_completed (negb (completed t)) t) = t.
Proof. apply Todo_eq; try done. simpl. apply negb_involutive. Qed.

(** The update [{completed: v}] saves the record with [completed] set to
    [v]. *)
Lemma validate_completed (v : bool) (t : Todo) :
  validate (assign_fields (mkBody None (Some v) None) (hydrate t)) (createdAt t)
    = Some (with_completed v t).
Proof.
  destruct (validate_assign_fields_Some (mkBody None (Some v) None) t) as (new & Hnew);
    [done|].
  rewrite Hnew. f_equal.
  apply validate_assign_fields in Hnew as (? & ? & ? & ? & ?).
  by apply Todo_eq.
Qed.

Lemma run_toggle_found (id : Id) (m : TodoManager) (sched : nat → env) (w : world)
    (t : Todo) (i j : nat) :
  List.find (id_is id) (todos m) = Some t →
  findIndex (id_is id) (todos m) = Some j →
  findIndex (has_id id) (db w) = Some i → db w !! i = Some t →
  online (sched (length (sent w))) = true →
  run sched (toggleTodoStatus id m) w
    = ((Normal (), mkManager (<[j:=with_completed (negb (completed t)) t]> (todos m))),
       mkWorld (<[i:=with_completed (negb (completed t)) t]> (db w))
         (sent w ++ [PUT_todo id (mkBody None (Some (negb (completed t))) None)])).
Proof.
  intros Hfind Hj Hi Hd Hv. unfold toggleTodoStatus. rewrite Hfind. cbn [run].
  rewrite (fetch_PUT_stored _ id _ w i t Hv Hi Hd), validate_completed. cbn [run].
  unfold replace_by_id. by rewrite Hj.
Qed.

Lemma cached_id_found (id : Id) (m : TodoManager) (w : world) :
  in_sync m w → id ∈ _id <$> todos m →
  ∃ t i j, List.find (id_is id) (todos m) = Some t ∧ _id t = id ∧
           findIndex (id_is id) (todos m) = Some j ∧ todos m !! j = Some t ∧
           findIndex (has_id id) (db w) = Some i ∧ db w !! i = Some t.
Proof.
  intros Hsync Hid. pose proof Hsync as (Hp & Hnd & Htr).
  assert (∃ t, List.find (id_is id) (todos m) = Some t) as [t Hfind].
  { destruct (List.find (id_is id) (todos m)) as [t|] eqn:Hf; [eauto|].
    apply list_elem_of_fmap in Hid as (t0 & -> & Ht0).
    pose proof (proj1 (find_None_iff _ _) Hf t0 Ht0) as Hn.
    assert (id_is (_id t0) t0 = true) as Hy; [|congruence].
    apply id_is_true. split; [|done]. apply Todo_id_truthy. }
  destruct (sync_found_is_stored m w id t Hsync Hfind) as (i & Hi & Hd).
  destruct (sync_same_record m w id i t Hsync Hi Hd) as (j & Hj & Hjd & _).
  destruct (find_Some_findIndex _ _ _ Hfind) as (_ & _ & _ & [_ Ht]%id_is_true).
  exists t, i, j. done.
Qed.

Lemma toggle_twice (id : Id) (m : TodoManager) (sched : nat → env) (w : world) :
  in_sync m w → id ∈ _id <$> todos m →
  online (sched (length (sent w))) = true →
  online (sched (S (length (sent w)))) = true →
  let r1 := run sched (toggleTodoStatus id m) w in
  let r2 := run sched (toggleTodoStatus id r1.1.2) r1.2 in
  r1.1.1 = Normal () ∧ r2.1.1 = Normal () ∧
  (∃ t, t ∈ db w ∧ _id t = id ∧
        with_completed (negb (completed t)) t ∈ db r1.2) ∧
  r2.1.2 = m ∧ db r2.2 = db w ∧
  length (sent r2.2) = S (S (length (sent w))).
Proof.
  intros Hsync Hid Hv1 Hv2 r1 r2. pose proof Hsync as (Hp & Hnd & Htr).
  destruct (cached_id_found id m w Hsync Hid)
    as (t & i & j & Hfind & Htid & Hj & Hjd & Hi & Hd).
  set (new := with_completed (negb (completed t)) t).
  assert (id_is id new = true) as Hnew_is.
  { apply id_is_true. split; [apply Todo_id_truthy|done]. }
  assert (has_id id new = true) as Hnew_has by by apply has_id_true.
  assert (r1 = ((Normal (), mkManager (<[j:=new]> (todos m))),
                mkWorld (<[i:=new]> (db w))
                  (sent w ++ [PUT_todo id (mkBody None (Some (negb (completed t))) None)])))
    as Hr1 by by apply run_toggle_found.
  assert (r2 = ((Normal (), mkManager (<[j:=with_completed (negb (completed new)) new]>
                                        (<[j:=new]> (todos m)))),
                mkWorld (<[i:=with_completed (negb (completed new)) new]> (<[i:=new]> (db w)))
                  ((sent w ++ [PUT_todo id (mkBody None (Some (negb (completed t))) None)])
                     ++ [PUT_todo id (mkBody None (Some (negb (completed new))) None)])))
    as Hr2.
  { subst r2. rewrite Hr1. cbn [fst snd].
    apply run_toggle_found; cbn [todos db sent].
    - by apply find_insert.
    - by apply findIndex_insert.
    - by apply findIndex_insert.
    - apply list_lookup_insert_eq. by eapply lookup_lt_Some.
    - rewrite length_app, Nat.add_1_r. done. }
  rewrite Hr1, Hr2. cbn [fst snd db sent].
  assert (with_completed (negb (completed new)) new = t) as -> by apply toggle_back.
  rewrite !list_insert_insert_eq.
  rewrite (list_insert_id (todos m) j t Hjd), (list_insert_id (db w) i t Hd).
  split_and!; try done.
  - exists t. split_and!.
    + by eapply list_elem_of_lookup_2.
    + done.
    + apply list_elem_of_insert. by eapply lookup_lt_Some.
  - by destruct m.
  - rewrite !length_app. simpl. lia.
Qed.

(** X17.  Toggling twice comes back.  With the cache in agreement with
    the store and the network up, toggling a cached identifier sends an
    update that flips [completed] of its record, and toggling it again
    sends a second one that restores it: afterwards the cache and the
    collection are exactly what they were, and two requests have gone
    out. *)
Theorem X17_toggle_twice_restores (id : Id) (m : TodoManager)
    (sched : nat → env) (w : world) :
  in_sync m w → id ∈ _id <$> todos m →
  online (sched (length (sent w))) = true →
  online (sched (S (length (sent w)))) = true →
  let r1 := run sched (toggleTodoStatus id m) w in
  let r2 := run sched (toggleTodoStatus id r1.1.2) r1.2 in
  r1.1.1 = Normal () ∧ r2.1.1 = Normal () ∧
  (∃ t, t ∈ db w ∧ _id t = id ∧
        with_completed (negb (completed t)) t ∈ db r1.2) ∧
  r2.1.2 = m ∧ db r2.2 = db w ∧
  length (sent r2.2) = S (S (length (sent w))).
Proof. apply toggle_twice. Qed.

Lemma X17_toggle_twice_restores_witness :
  let r1 := run quiet (toggleTodoStatus (lit "65f0a1b2c3d4e5f6a7b8c9d1") (mkManager [sample_todo; other_todo]))
              (mkWorld [other_todo; sample_todo] []) in
  let r2 := run quiet (toggleTodoStatus (lit "65f0a1b2c3d4e5f6a7b8c9d1") r1.1.2) r1.2 in
  r1.1.1 = Normal () ∧ r2.1.1 = Normal () ∧
  (∃ t, t ∈ db (mkWorld [other_todo; sample_todo] []) ∧ _id t = lit "65f0a1b2c3d4e5f6a7b8c9d1" ∧
        with_completed (negb (completed t)) t ∈ db r1.2) ∧
  r2.1.2 = mkManager [sample_todo; other_todo] ∧
  db r2.2 = db (mkWorld [other_todo; sample_todo] []) ∧
  length (sent r2.2) = S (S (length (sent (mkWorld [other_todo; sample_todo] [])))).
Proof.
  apply (X17_toggle_twice_restores (lit "65f0a1b2c3d4e5f6a7b8c9d1") (mkManager [sample_todo; other_todo])
           quiet (mkWorld [other_todo; sample_todo] [])).
  - split_and!.
    + apply perm_swap.
    + apply (bool_decide_unpack _). by vm_compute.
    + by repeat constructor.
  - apply (bool_decide_unpack _). by vm_compute.
  - reflexivity.
  - reflexivity.
Defined.

(** ** Further properties of the page *)

Lemma showAllTodos_eq ui :
  showAllTodos ui = displayTodos (todos (todoManager ui)) ui.
Proof. unfold showAllTodos, filterTodos. simpl. by destruct ui. Qed.

Lemma displayTodos_set_tbody l ui :
  displayTodos l ui
    = set_tbody (match l with
                 | [] => NoTaskFound
                 | _ :: _ =>
                     if forallb inert_row l then Rows (display_row <$> l)
                     else Unparsed l
                 end) ui.
Proof. unfold displayTodos. destruct l; [done|]. by destruct (forallb inert_row _). Qed.

Lemma displayTodos_fields l ui :
  todoManager (displayTodos l ui) = todoManager ui ∧
  taskInput (displayTodos l ui) = taskInput ui ∧
  dateInput (displayTodos l ui) = dateInput ui ∧
  addBtn_innerHTML (displayTodos l ui) = addBtn_innerHTML ui ∧
  addBtn_click (displayTodos l ui) = addBtn_click ui ∧
  alertMessage (displayTodos l ui) = alertMessage ui.
Proof. by rewrite displayTodos_set_tbody. Qed.

Lemma displayTodos_tbody l ui ui' :
  todosListBody (displayTodos l ui) = todosListBody (displayTodos l ui').
Proof. by rewrite !displayTodos_set_tbody. Qed.

Lemma remove_listener_only id html :
  remove_listener (OnUpdate id html) [OnUpdate id html] = [].
Proof. simpl. by rewrite bool_decide_eq_true_2. Qed.

Ltac ui_simpl :=
  rewrite ?showAllTodos_eq, ?displayTodos_set_tbody;
  cbn [todoManager taskInput dateInput addBtn_innerHTML addBtn_click
       todosListBody alertMessage set_manager set_inputs set_addBtn set_tbody
       showAlertMessage todos fst snd remove_listener app db sent].

(** *** Editing in place *)





(** *** Every handler *)

Ltac handler_cases i ui :=
  destruct i as [| |id html|id|confirmed id|confirmed]; unfold handle;
  [unfold refreshUI, fetchTodos
  |unfold handleAddTodo, addTodo;
   destruct (str_eqb (trim (taskInput ui)) (lit "")) eqn:Hblank
  |unfold handleUpdate, editTodo
  |unfold handleToggleStatus, toggleTodoStatus;
   destruct (List.find (id_is id) (todos (todoManager ui))) as [todo|] eqn:Hfind
  |unfold handleDeleteTodo, deleteTodo; destruct confirmed
  |unfold handleClearAllTodos, clearAllTodos; destruct confirmed];
  cbn [bind run negb]; try fetch_cases; cbn [bind run fst snd].

Lemma handlers_keep_one_listener (i : intent) (ui : UIManager)
    (sched : nat → env) (w : world) (l : listener) :
  addBtn_click ui = [l] →
  (∀ id html, i = ConfirmEdit id html → l = OnUpdate id html) →
  ∃ l', addBtn_click (run sched (handle i ui) w).1 = [l'].
Proof.
  intros Hl Hreg.
  handler_cases i ui; ui_simpl; rewrite ?Hl; eauto.
  rewrite (Hreg id html eq_refl). simpl.
  rewrite bool_decide_eq_true_2 by done. eauto.
Qed.

Lemma other_handlers_keep_listeners (i : intent) (ui : UIManager)
    (sched : nat → env) (w : world) :
  (∀ id html, i ≠ ConfirmEdit id html) →
  addBtn_click (run sched (handle i ui) w).1 = addBtn_click ui ∧
  addBtn_innerHTML (run sched (handle i ui) w).1 = addBtn_innerHTML ui.
Proof.
  intros Hi. handler_cases i ui; ui_simpl; try done.
  all: by destruct (Hi id html).
Qed.

(** X19.  The add button always has exactly one click listener.  If it has
    one, then it has one after starting an edit (of any identifier), after
    the click that fires it (whether it is the add listener or the update
    listener of an edit, and whether the request succeeds or not), and the
    other handlers (refresh, toggle, delete, delete all) leave it and the
    button's markup alone. *)
Theorem X19_add_button_has_one_listener (ui : UIManager) (l : listener)
    (sched : nat → env) (w : world) :
  addBtn_click ui = [l] →
  (∀ id, ∃ l', addBtn_click (handleEditTodo id ui) = [l']) ∧
  (∃ l', addBtn_click (run sched (fire l ui) w).1 = [l']) ∧
  (∀ i, (∀ id html, i ≠ ConfirmEdit id html) →
        addBtn_click (run sched (handle i ui) w).1 = [l] ∧
        addBtn_innerHTML (run sched (handle i ui) w).1 = addBtn_innerHTML ui).
Proof.
  intros Hl. split_and!.
  - intros id. unfold handleEditTodo.
    destruct (List.find (id_is id) (todos (todoManager ui))); simpl; eauto.
  - destruct l as [|id html].
    + apply (handlers_keep_one_listener SubmitNew ui sched w OnAdd Hl). done.
    + apply (handlers_keep_one_listener (ConfirmEdit id html) ui sched w
               (OnUpdate id html) Hl).
      by intros ?? [= -> ->].
  - intros i Hi. rewrite <-Hl. by apply other_handlers_keep_listeners.
Qed.

Lemma X19_add_button_has_one_listener_witness :
  (∀ id, ∃ l', addBtn_click (handleEditTodo id listed_ui) = [l']) ∧
  (∃ l', addBtn_click (run quiet (fire OnAdd listed_ui) stored_world).1 = [l']) ∧
  (∀ i, (∀ id html, i ≠ ConfirmEdit id html) →
        addBtn_click (run quiet (handle i listed_ui) stored_world).1 = [OnAdd] ∧
        addBtn_innerHTML (run quiet (handle i listed_ui) stored_world).1
          = addBtn_innerHTML listed_ui).
Proof.
  apply (X19_add_button_has_one_listener listed_ui OnAdd quiet stored_world).
  reflexivity.
Defined.

Lemma offline_handler_reports (i : intent) (ui : UIManager)
    (sched : nat → env) (w : world) :
  online (sched (length (sent w))) = false →
  sent (run sched (handle i ui) w).2 ≠ sent w →
  (∃ msg, alertMessage (run sched (handle i ui) w).1 = Some (msg, lit "error")) ∧
  todoManager (run sched (handle i ui) w).1 = todoManager ui ∧
  todosListBody (run sched (handle i ui) w).1 = todosListBody ui ∧
  taskInput (run sched (handle i ui) w).1 = taskInput ui ∧
  dateInput (run sched (handle i ui) w).1 = dateInput ui ∧
  addBtn_click (run sched (handle i ui) w).1 = addBtn_click ui ∧
  db (run sched (handle i ui) w).2 = db w.
Proof.
  intros Hoff.
  handler_cases i ui; ui_simpl; try congruence; intros _;
    (split_and!; [eexists; reflexivity|try done..]); by destruct ui as [[]].
Qed.

(** X20.  No failure is silent.  When the network is down and a handler
    (refresh, submit, confirm edit, toggle, delete, delete all) has sent a
    request, the page afterwards shows a banner of type [error], and the
    cache, the table, both inputs, the add button's listener and the
    collection are as they were. *)
Theorem X20_lost_request_shows_error (i : intent) (ui : UIManager)
    (sched : nat → env) (w : world) :
  online (sched (length (sent w))) = false →
  sent (run sched (handle i ui) w).2 ≠ sent w →
  (∃ msg, alertMessage (run sched (handle i ui) w).1 = Some (msg, lit "error")) ∧
  todoManager (run sched (handle i ui) w).1 = todoManager ui ∧
  todosListBody (run sched (handle i ui) w).1 = todosListBody ui ∧
  taskInput (run sched (handle i ui) w).1 = taskInput ui ∧
  dateInput (run sched (handle i ui) w).1 = dateInput ui ∧
  addBtn_click (run sched (handle i ui) w).1 = addBtn_click ui ∧
  db (run sched (handle i ui) w).2 = db w.
Proof. apply offline_handler_reports. Qed.

Lemma X20_lost_request_shows_error_witness :
  (∃ msg, alertMessage (run offline (handle (Toggle (lit "65f0a1b2c3d4e5f6a7b8c9d1")) listed_ui)
                          stored_world).1 = Some (msg, lit "error")) ∧
  todoManager (run offline (handle (Toggle (lit "65f0a1b2c3d4e5f6a7b8c9d1")) listed_ui) stored_world).1
    = todoManager listed_ui ∧
  todosListBody (run offline (handle (Toggle (lit "65f0a1b2c3d4e5f6a7b8c9d1")) listed_ui) stored_world).1
    = todosListBody listed_ui ∧
  taskInput (run offline (handle (Toggle (lit "65f0a1b2c3d4e5f6a7b8c9d1")) listed_ui) stored_world).1
    = taskInput listed_ui ∧
  dateInput (run offline (handle (Toggle (lit "65f0a1b2c3d4e5f6a7b8c9d1")) listed_ui) stored_world).1
    = dateInput listed_ui ∧
  addBtn_click (run offline (handle (Toggle (lit "65f0a1b2c3d4e5f6a7b8c9d1")) listed_ui) stored_world).1
    = addBtn_click listed_ui ∧
  db (run offline (handle (Toggle (lit "65f0a1b2c3d4e5f6a7b8c9d1")) listed_ui) stored_world).2
    = db stored_world.
Proof.
  apply (X20_lost_request_shows_error (Toggle (lit "65f0a1b2c3d4e5f6a7b8c9d1")) listed_ui offline
           stored_world).
  - reflexivity.
  - vm_compute. intros H. discriminate H.
Defined.




(** *** The filtered table *)

(** X22.  Choosing a filter changes only the table: the cache, the inputs,
    the banner and the add button are untouched.  When the texts of the view
    are inert in markup (no [<], no [&]; the source writes them into
    [innerHTML] unescaped), the table shows the [No task found] row exactly
    when the view is empty, and otherwise one row for each record of the
    view, in its order; under [pending] every status cell reads [Pending],
    under [completed] every one reads [Completed]. *)
Theorem X22_filter_shows_the_view (status : jsstring) (ui : UIManager) :
  let view := (filterTodos status (todoManager ui)).1 in
  let ui' := handleFilterTodos status ui in
  forallb inert_row view = true →
  (todoManager ui' = todoManager ui ∧ taskInput ui' = taskInput ui ∧
   dateInput ui' = dateInput ui ∧ alertMessage ui' = alertMessage ui ∧
   addBtn_click ui' = addBtn_click ui) ∧
  (view = [] ∧ todosListBody ui' = NoTaskFound ∨
   ∃ rows, todosListBody ui' = Rows rows ∧ rows ≠ [] ∧
           rows = display_row <$> view ∧
           Forall (λ r, status = lit "pending" → cell_status r = lit "Pending") rows ∧
           Forall (λ r, status = lit "completed" → cell_status r = lit "Completed") rows).
Proof.
  intros view ui' Hinert.
  assert (filterTodos status (todoManager ui) = (view, todoManager ui)) as Hf.
  { subst view. unfold filterTodos. by repeat destruct (str_eqb _ _). }
  assert (∀ x, x ∈ view → (status = lit "pending" → completed x = false) ∧
                          (status = lit "completed" → completed x = true)) as Hx.
  { intros x Hin. subst view.
    split; intros ->; cbn in Hin; apply filter_elem_of in Hin as [_ Hc];
      [by apply negb_true_iff|done]. }
  clearbody view. subst ui'. unfold handleFilterTodos. rewrite Hf.
  rewrite displayTodos_set_tbody. rewrite Hinert.
  cbn [todoManager taskInput dateInput alertMessage addBtn_click todosListBody
       set_tbody set_manager].
  split; [done|].
  destruct view as [|t view']; [by left|right].
  eexists. split; [done|]. split; [done|]. split; [done|].
  split; apply Forall_fmap, Forall_forall; intros x Hin Hs; cbn;
    destruct (Hx x Hin) as [Hp Hc]; [by rewrite (Hp Hs)|by rewrite (Hc Hs)].
Qed.

Lemma X22_filter_shows_the_view_witness :
  (todoManager (handleFilterTodos (lit "pending") listed_ui) = todoManager listed_ui ∧
   taskInput (handleFilterTodos (lit "pending") listed_ui) = taskInput listed_ui ∧
   dateInput (handleFilterTodos (lit "pending") listed_ui) = dateInput listed_ui ∧
   alertMessage (handleFilterTodos (lit "pending") listed_ui) = alertMessage listed_ui ∧
   addBtn_click (handleFilterTodos (lit "pending") listed_ui) = addBtn_click listed_ui) ∧
  ((filterTodos (lit "pending") (todoManager listed_ui)).1 = [] ∧
   todosListBody (handleFilterTodos (lit "pending") listed_ui) = NoTaskFound ∨
   ∃ rows, todosListBody (handleFilterTodos (lit "pending") listed_ui) = Rows rows ∧
           rows ≠ [] ∧
           rows = display_row <$> (filterTodos (lit "pending") (todoManager listed_ui)).1 ∧
           Forall (λ r, lit "pending" = lit "pending" → cell_status r = lit "Pending") rows ∧
           Forall (λ r, lit "pending" = lit "completed" → cell_status r = lit "Completed")
             rows).
Proof.
  apply (X22_filter_shows_the_view (lit "pending") listed_ui). reflexivity.
Defined.

(** A task with markup in it is not shown as one row of text. *)
Example markup_in_a_task_is_parsed :
  todosListBody
    (displayTodos [mkTodo (lit "65f0a1b2c3d4e5f6a7b8c9d1") (lit "</tr><tr>") None false 1 I]
       blank_ui)
  = Unparsed [mkTodo (lit "65f0a1b2c3d4e5f6a7b8c9d1") (lit "</tr><tr>") None false 1 I].
Proof. by vm_compute. Qed.

(** *** The confirm dialog *)

Lemma remove_first_head k ks : remove_first k (k :: ks) = ks.
Proof. simpl. by rewrite bool_decide_eq_true_2. Qed.

Lemma click_settles_all (answer : bool) (ks : list nat) (d : modal) :
  confirmBtn_click d = ks → cancelBtn_click d = ks →
  foldl (λ d k,
           mkModal false (modalTitle d) (modalMessage d)
             (remove_first k (confirmBtn_click d)) (remove_first k (cancelBtn_click d))
             (resolved d ++ [(k, answer)])) d ks
  = mkModal (match ks with [] => modalToggle_checked d | _ => false end)
      (modalTitle d) (modalMessage d) [] []
      (resolved d ++ ((λ k, (k, answer)) <$> ks)).
Proof.
  revert d. induction ks as [|k ks IH]; intros d Hc Hx.
  - simpl. rewrite app_nil_r. destruct d; simpl in *; by subst.
  - cbn [foldl]. rewrite IH; cbn [confirmBtn_click cancelBtn_click
      modalTitle modalMessage resolved modalToggle_checked].
    + rewrite <-(assoc (++)). by destruct ks.
    + rewrite Hc. apply remove_first_head.
    + rewrite Hx. apply remove_first_head.
Qed.

(** X23.  One click answers the dialog for good.  While both buttons of
    the dialog carry the listeners of the same pending questions (as they
    do after any calls of [showConfirmModal]), a click on confirm resolves
    every pending question with true, in the order asked, and a click on
    cancel resolves them with false; either way the dialog is closed and no
    listener is left on either button, so the click cannot answer a later
    question.  Asking a question opens the dialog with its title and
    message and adds its listener to both buttons. *)
Theorem X23_confirm_dialog_settles (k : nat) (title message : jsstring) (d : modal) :
  cancelBtn_click d = confirmBtn_click d →
  let asked := showConfirmModal k title message d in
  modalToggle_checked asked = true ∧
  cancelBtn_click asked = confirmBtn_click asked ∧
  confirmBtn_click asked = confirmBtn_click d ++ [k] ∧
  click_confirm asked
    = mkModal false title message [] []
        (resolved d ++ ((λ j, (j, true)) <$> (confirmBtn_click d ++ [k]))) ∧
  click_cancel asked
    = mkModal false title message [] []
        (resolved d ++ ((λ j, (j, false)) <$> (confirmBtn_click d ++ [k]))).
Proof.
  intros Hsame asked. subst asked. unfold showConfirmModal.
  cbn [modalToggle_checked cancelBtn_click confirmBtn_click].
  rewrite Hsame. split_and!; try done.
  - unfold click_confirm, onConfirm. cbn [confirmBtn_click].
    rewrite (click_settles_all true (confirmBtn_click d ++ [k])); [|done..].
    cbn [modalTitle modalMessage resolved modalToggle_checked].
    by destruct (confirmBtn_click d).
  - unfold click_cancel, onCancel. cbn [cancelBtn_click].
    rewrite (click_settles_all false (confirmBtn_click d ++ [k])); [|done..].
    cbn [modalTitle modalMessage resolved modalToggle_checked].
    by destruct (confirmBtn_click d).
Qed.

Lemma X23_confirm_dialog_settles_witness :
  let asked := showConfirmModal 1 (lit "Delete Task")
                 (lit "Are you sure you want to delete this task?")
                 (mkModal false (lit "") (lit "") [] [] [(0, false)]) in
  modalToggle_checked asked = true ∧
  cancelBtn_click asked = confirmBtn_click asked ∧
  confirmBtn_click asked = [] ++ [1] ∧
  click_confirm asked
    = mkModal false (lit "Delete Task")
        (lit "Are you sure you want to delete this task?") [] []
        ([(0, false)] ++ ((λ j, (j, true)) <$> ([] ++ [1]))) ∧
  click_cancel asked
    = mkModal false (lit "Delete Task")
        (lit "Are you sure you want to delete this task?") [] []
        ([(0, false)] ++ ((λ j, (j, false)) <$> ([] ++ [1]))).
Proof.
  apply (X23_confirm_dialog_settles 1 (lit "Delete Task")
           (lit "Are you sure you want to delete this task?")
           (mkModal false (lit "") (lit "") [] [] [(0, false)])).
  reflexivity.
Defined.

(** ** The theme switcher *)

(** X24.  The theme survives a reload.  Flipping the checkbox sets the
    theme to [light] when it is now checked and to [night] otherwise, on
    the page and in [localStorage]; a page loaded afterwards over the same
    storage comes up with that theme and with the checkbox in the same
    state, whatever its markup says, and without writing to the storage.
    A page loaded with no stored theme comes up in [night] with the
    checkbox unchecked. *)
Theorem X24_theme_survives_reload (p : Theme.page) (attr : option jsstring)
    (checked : bool) :
  let p1 := Theme.flip_toggle p in
  let p2 := Theme.reload attr checked p1 in
  Theme.toggle_checked p1 = negb (Theme.toggle_checked p) ∧
  Theme.data_theme p1
    = Some (if Theme.toggle_checked p1 then lit "light" else lit "night") ∧
  Theme.getThemeFromLocalStorage p1 = Theme.data_theme p1 ∧
  Theme.data_theme p2 = Theme.data_theme p1 ∧
  Theme.toggle_checked p2 = Theme.toggle_checked p1 ∧
  Theme.localStorage p2 = Theme.localStorage p1 ∧
  Theme.init (Theme.mkPage (delete (lit "theme") (Theme.localStorage p)) attr checked)
    = Theme.mkPage (delete (lit "theme") (Theme.localStorage p))
        (Some (lit "night")) false.
Proof.
  intros p1 p2. subst p2 p1.
  unfold Theme.reload, Theme.flip_toggle, Theme.on_change, Theme.init,
    Theme.getThemeFromLocalStorage, Theme.saveThemeToLocalStorage, Theme.setTheme.
  cbn [Theme.toggle_checked Theme.data_theme Theme.localStorage].
  rewrite lookup_insert_eq, lookup_delete_eq.
  by destruct (Theme.toggle_checked p).
Qed.

(** ** Loading the page, and the Enter key *)

(** X25.  Loading the list.  With the network up, [refreshUI] sends one
    list request and nothing else; the cache becomes the stored records,
    ordered newest first, the table shows all of them, the banner is left
    alone and the collection is unchanged. *)
Theorem X25_refresh_loads_the_list (ui : UIManager) (sched : nat → env) (w : world) :
  online (sched (length (sent w))) = true →
  let r := run sched (refreshUI ui) w in
  sent r.2 = sent w ++ [GET_todos] ∧ db r.2 = db w ∧
  todos (todoManager r.1) ≡ₚ db w ∧
  StronglySorted newest_first (todos (todoManager r.1)) ∧
  todosListBody r.1
    = todosListBody (displayTodos (todos (todoManager r.1)) r.1) ∧
  alertMessage r.1 = alertMessage ui.
Proof.
  intros Hv r. subst r. unfold refreshUI, fetchTodos. cbn [bind run].
  rewrite (fetch_GET _ w Hv). cbn [bind run fst snd]. ui_simpl.
  split_and!; try done.
  - apply merge_sort_Permutation.
  - apply StronglySorted_merge_sort; apply _.
Qed.

Lemma X25_refresh_loads_the_list_witness :
  let r := run quiet (refreshUI blank_ui) stored_world in
  sent r.2 = sent stored_world ++ [GET_todos] ∧ db r.2 = db stored_world ∧
  todos (todoManager r.1) ≡ₚ db stored_world ∧
  StronglySorted newest_first (todos (todoManager r.1)) ∧
  todosListBody r.1
    = todosListBody (displayTodos (todos (todoManager r.1)) r.1) ∧
  alertMessage r.1 = alertMessage blank_ui.
Proof.
  apply (X25_refresh_loads_the_list blank_ui quiet stored_world). reflexivity.
Defined.

(** X26.  The Enter key only ever adds.  When the key released in the task
    input is Enter and the input, trimmed, is not empty, exactly one request
    goes out, and it is the create request for the trimmed text (cut to 14
    code units and an ellipsis when longer) and the date input; this also
    while an edit is pending on the add button, so never an update.  In
    every other case nothing is sent, and the collection and the cache are
    as they were. *)
Theorem X26_keyup_only_adds (keyCode : Z) (ui : UIManager)
    (sched : nat → env) (w : world) :
  let r := run sched (taskInput_keyup keyCode ui) w in
  (keyCode = 13%Z ∧ trim (taskInput ui) ≠ lit "" →
     sent r.2
       = sent w ++ [POST_todos (mkBody (Some (formatTask (trim (taskInput ui)))) None
                                  (Some (formatDueDate (Some (dateInput ui)))))]) ∧
  (¬ (keyCode = 13%Z ∧ trim (taskInput ui) ≠ lit "") →
     r.2 = w ∧ todoManager r.1 = todoManager ui).
Proof.
  intros r. subst r. unfold taskInput_keyup. split.
  - intros [-> Htrim]. cbn [Z.eqb Pos.eqb andb].
    destruct (taskInput ui) as [|c s] eqn:Hin; [by destruct Htrim|].
    cbn [length Nat.ltb Nat.leb]. unfold handleAddTodo. rewrite Hin.
    rewrite (bool_decide_eq_false_2 _ Htrim : str_eqb _ _ = false).
    rewrite run_bind.
    pose proof (run_addTodo_sent (trim (c :: s)) (Some (dateInput ui))
                  (todoManager ui) sched w) as Hs.
    destruct (run sched (addTodo _ _ _) w) as [[cpl m] w1].
    cbn [snd] in Hs. destruct cpl; exact Hs.
  - intros Hnot.
    destruct (keyCode =? 13)%Z eqn:Hk; [|done]. apply Z.eqb_eq in Hk.
    destruct (0 <? length (taskInput ui)); [|done]. cbn [andb].
    unfold handleAddTodo.
    destruct (str_eqb (trim (taskInput ui)) (lit "")) eqn:E; [done|].
    apply bool_decide_eq_false in E. by destruct Hnot.
Qed.

(** ** Editing and deleting through to the store *)



(** X28.  Deleting through the page.  Declining the confirm dialog does
    nothing at all.  Confirming it, with the cache in agreement with the
    store and the network up, for an identifier that is stored: one delete
    request goes out, the collection is one record shorter, no stored and
    no cached record carries the identifier any more, the success banner
    shows and the table shows the whole cache. *)
Theorem X28_delete_through_the_page (id : Id) (ui : UIManager)
    (sched : nat → env) (w : world) :
  in_sync (todoManager ui) w → id ∈ _id <$> db w →
  online (sched (length (sent w))) = true →
  run sched (handleDeleteTodo false id ui) w = (ui, w) ∧
  let r := run sched (handleDeleteTodo true id ui) w in
  sent r.2 = sent w ++ [DELETE_todo id] ∧
  S (length (db r.2)) = length (db w) ∧
  (id ∉ _id <$> db (r.2)) ∧
  (id ∉ _id <$> todos (todoManager (r.1))) ∧
  in_sync (todoManager r.1) r.2 ∧
  alertMessage r.1 = Some (lit "Todo deleted successfully", lit "success") ∧
  todosListBody r.1
    = todosListBody (displayTodos (todos (todoManager r.1)) r.1).
Proof.
  intros Hsync Hid Hv. split; [done|]. intros r. subst r.
  destruct (has_id_present id (db w) Hid) as (i & d & Hi & Hd & Hidd).
  pose proof (sync_delete (todoManager ui) w id i d (sent w ++ [DELETE_todo id])
                Hsync Hi Hd) as Hsync'.
  unfold handleDeleteTodo, deleteTodo. cbn [negb bind run].
  rewrite (fetch_DELETE_stored _ id w i Hv Hi). cbn [bind run fst snd].
  ui_simpl. pose proof Hsync' as (Hp' & Hnd' & Htr').
  cbn [todos db] in Hp', Hnd', Htr'. pose proof Hsync as (Hp & Hnd & Htr).
  assert (id ∉ _id <$> delete i (db w)) as Hgone.
  { rewrite <-Hidd. by apply delete_removes_id. }
  split_and!; try done.
  - rewrite length_delete by eauto. apply lookup_lt_Some in Hd. lia.
  - by rewrite Hp'.
Qed.

Lemma X28_delete_through_the_page_witness :
  run quiet (handleDeleteTodo false (lit "65f0a1b2c3d4e5f6a7b8c9d1") listed_ui) stored_world
    = (listed_ui, stored_world) ∧
  let r := run quiet (handleDeleteTodo true (lit "65f0a1b2c3d4e5f6a7b8c9d1") listed_ui) stored_world in
  sent r.2 = sent stored_world ++ [DELETE_todo (lit "65f0a1b2c3d4e5f6a7b8c9d1")] ∧
  S (length (db r.2)) = length (db stored_world) ∧
  (lit "65f0a1b2c3d4e5f6a7b8c9d1" ∉ _id <$> db (r.2)) ∧
  (lit "65f0a1b2c3d4e5f6a7b8c9d1" ∉ _id <$> todos (todoManager (r.1))) ∧
  in_sync (todoManager r.1) r.2 ∧
  alertMessage r.1 = Some (lit "Todo deleted successfully", lit "success") ∧
  todosListBody r.1
    = todosListBody (displayTodos (todos (todoManager r.1)) r.1).
Proof.
  apply (X28_delete_through_the_page (lit "65f0a1b2c3d4e5f6a7b8c9d1") listed_ui quiet stored_world).
  - split_and!.
    + apply perm_swap.
    + apply (bool_decide_unpack _). by vm_compute.
    + by repeat constructor.
  - apply (bool_decide_unpack _). by vm_compute.
  - reflexivity.
Defined.
